(** * Weak-instrument Monte Carlo engine: a shallow embedding

    The engine of the weak-IV demo ([services/simulation.ts]) is embedded
    function by function.  JavaScript numbers are IEEE-754 binary64 values,
    which is what Rocq's primitive [float] is, so every arithmetic step of
    the source is kept as the float operation it is.  The four [Math]
    functions that ECMAScript leaves implementation-approximated ([log],
    [cos], [sin], [pow]) are an interface the development is parametric in.

    Of the application ([App.tsx], [ControlPanel.tsx]) the state handlers
    are embedded: the run handler as a function of the component state and
    of what the user does during the run, the text of the CSV export (with
    [toFixed] as a parameter), and the two number fields of the panel. *)

From Stdlib Require Import ZArith List Bool Floats Lia Permutation Sorted.
From Stdlib Require String DecimalString.
Import ListNotations String.StringSyntax.

(** ** JavaScript numbers and the integer conversions the source relies on *)

Definition number : Type := float.

Module JS.

(** Integer part of a number, toward zero; NaN and the infinities give 0,
    as in the conversions ToInt32 and ToUint32. *)
Definition truncZ (x : number) : Z :=
  match Prim2SF x with
  | S754_finite s m e =>
      let a := Z.shiftl (Z.pos m) e in if s then (- a)%Z else a
  | _ => 0%Z
  end.

Definition two32 : Z := 4294967296.

Definition wrapU32 (z : Z) : Z := (z mod two32)%Z.

Definition wrapI32 (z : Z) : Z :=
  let u := wrapU32 z in
  if (u <? 2147483648)%Z then u else (u - two32)%Z.

(** [a ^ b], [a | b], [a >>> k] and [Math.imul (a, b)] on integer-valued
    numbers, held as [Z]. *)
Definition xor (a b : Z) : Z := Z.lxor (wrapI32 a) (wrapI32 b).
Definition bor (a b : Z) : Z := Z.lor (wrapI32 a) (wrapI32 b).
Definition ushr (a k : Z) : Z := Z.shiftr (wrapU32 a) k.
Definition imul (a b : Z) : Z := wrapI32 (wrapI32 a * wrapI32 b).

(** The number that holds an integer: exact up to 2^53 in magnitude (every
    array length, loop counter and sample size the engine can meet),
    correctly rounded up to 2^63, saturating beyond. *)
Definition maxInt63 : Z := 9223372036854775807.

Definition ofNonneg (z : Z) : number :=
  of_uint63 (Uint63.of_Z (Z.min z maxInt63)).

Definition ofZ (z : Z) : number :=
  if (z <? 0)%Z then (- ofNonneg (- z))%float else ofNonneg z.

Definition ofNat (n : nat) : number := ofZ (Z.of_nat n).

(** [a[i]]: a read past the end gives [undefined], which every use in the
    engine coerces to NaN by arithmetic. *)
Definition get (a : list number) (i : nat) : number := nth i a nan.

(** [Number.isFinite (x)] *)
Definition isFinite (x : number) : bool :=
  match Prim2SF x with
  | S754_zero _ | S754_finite _ _ _ => true
  | _ => false
  end.

(** [Math.floor (x)] where the source uses it, as an array index: the
    integer for a number that is not negative, nothing otherwise (no
    element is read, and [??] takes the fallback). *)
Definition floorZ (x : number) : option Z :=
  match Prim2SF x with
  | S754_zero _ => Some 0%Z
  | S754_finite false _ _ => Some (truncZ x)
  | _ => None
  end.

Definition floorIndex (x : number) : option nat :=
  option_map Z.to_nat (floorZ x).

(** The constants of the source, as the binary64 values their decimal
    spellings denote. *)
Definition c_0_02 : number := 0x1.47ae147ae147bp-6%float.   (* 0.02 *)
Definition c_0_98 : number := 0x1.f5c28f5c28f5cp-1%float.   (* 0.98 *)
Definition c_0_1 : number := 0x1.999999999999ap-4%float.    (* 0.1 *)
Definition c_1e_9 : number := 0x1.12e0be826d695p-30%float.  (* 1e-9 *)
Definition c_1e_7 : number := 0x1.ad7f29abcaf48p-24%float.  (* 0.0000001 *)
Definition Math_PI : number := 0x1.921fb54442d18p+1%float.

(** [Math.min (...a)] and [Math.max (...a)]. *)
Definition min2 (a b : number) : number :=
  if is_nan a || is_nan b then nan
  else if (a <? b)%float then a
  else if (b <? a)%float then b
  else if get_sign a then a else b.

Definition max2 (a b : number) : number :=
  if is_nan a || is_nan b then nan
  else if (a <? b)%float then b
  else if (b <? a)%float then a
  else if get_sign a then b else a.

Definition Math_min (a : list number) : number := fold_left min2 a infinity.
Definition Math_max (a : list number) : number := fold_left max2 a neg_infinity.

End JS.

(** The part of [Math] whose results ECMAScript does not pin down. *)
Class MathLib : Type := {
  Math_log : number -> number;
  Math_cos : number -> number;
  Math_sin : number -> number;
  Math_pow : number -> number -> number
}.

(** ** The data model ([types.ts]) *)

Record SimulationParams : Type := {
  sampleSize : Z;
  replications : Z;
  ivStrength : number;
  endogeneity : number;
  betaTrue : number;
  seed : number
}.

Record SimulationResult : Type := {
  olsEstimates : list number;
  ivEstimates : list number;
  fStats : list number;
  olsBias : number;
  ivBias : number;
  olsVariance : number;
  ivVariance : number
}.

Record BinData : Type := {
  rangeStart : number;
  rangeEnd : number;
  olsFrequency : number;
  ivFrequency : number;
  midpoint : number
}.

(** ** [class SeededRNG] (Mulberry32) *)

Record SeededRNG : Type := { state : number }.

Definition newSeededRNG (seed0 : number) : SeededRNG := {| state := seed0 |}.

(** [next ()]: the value returned and the generator after the call.  The
    state is a number and [+=] is the float addition; only the mixing works
    on its 32-bit image. *)
Definition next (rng : SeededRNG) : number * SeededRNG :=
  let s := (state rng + 1831565813)%float in           (* 0x6D2B79F5 *)
  let t := JS.truncZ s in
  let t := JS.imul (JS.xor t (JS.ushr t 15)) (JS.bor t 1) in
  let t := JS.xor t (t + JS.imul (JS.xor t (JS.ushr t 7)) (JS.bor t 61))%Z in
  ((JS.ofZ (JS.wrapU32 (JS.xor t (JS.ushr t 14))) / 4294967296)%float,
   {| state := s |}).

(** The message of the error thrown at line 133. *)
Local Open Scope string_scope.
Definition cancelledMessage : String.string := "Simulation Cancelled".
Local Close Scope string_scope.

(** ** [generateCorrelatedNormals] *)

Section Engine.

Context {M : MathLib}.

Local Open Scope float_scope.

(** One turn of the [for] loop: two draws, the guard against [log (0)],
    Box-Muller, the correlation step, one push on each array. *)
Definition correlatedPair (rho : number) (rng : SeededRNG)
  : (number * number) * SeededRNG :=
  let (u1, rng1) := next rng in
  let (u2, rng2) := next rng1 in
  let u1 := if u1 <=? 0 then JS.c_1e_7 else u1 in
  let z1 := sqrt (-2 * Math_log u1) * Math_cos (2 * JS.Math_PI * u2) in
  let z2 := sqrt (-2 * Math_log u1) * Math_sin (2 * JS.Math_PI * u2) in
  let valV := z1 in
  let valU := rho * z1 + sqrt (1 - rho * rho) * z2 in
  ((valU, valV), rng2).

Fixpoint correlatedLoop (todo : nat) (rho : number)
    (u v : list number) (rng : SeededRNG)
  : (list number * list number) * SeededRNG :=
  match todo with
  | O => ((u, v), rng)
  | S todo' =>
      let '((valU, valV), rng') := correlatedPair rho rng in
      correlatedLoop todo' rho (u ++ [valU]) (v ++ [valV]) rng'
  end.

Definition generateCorrelatedNormals (n : Z) (rho : number) (rng : SeededRNG)
  : (list number * list number) * SeededRNG :=
  correlatedLoop (Z.to_nat n) rho [] [] rng.

(** ** [mean], [variance] and the two estimators *)

Definition mean (arr : list number) : number :=
  fold_left (fun a b => a + b) arr 0 / JS.ofNat (length arr).

Definition variance (arr : list number) (mu : option number) : number :=
  let m := match mu with Some m => m | None => mean arr end in
  fold_left (fun a b => a + Math_pow (b - m) 2) arr 0 / JS.ofNat (length arr).

Definition estimateOLS (x y : list number) : number :=
  let n := length x in
  let xBar := mean x in
  let yBar := mean y in
  let '(num, den) :=
    fold_left
      (fun '(num, den) i =>
         (num + (JS.get x i - xBar) * (JS.get y i - yBar),
          den + (JS.get x i - xBar) * (JS.get x i - xBar)))
      (seq 0 n) (0, 0) in
  num / den.

Definition estimateIV (x y z : list number) : number :=
  let n := length x in
  let xBar := mean x in
  let yBar := mean y in
  let zBar := mean z in
  let '(num, den) :=
    fold_left
      (fun '(num, den) i =>
         (num + (JS.get z i - zBar) * (JS.get y i - yBar),
          den + (JS.get z i - zBar) * (JS.get x i - xBar)))
      (seq 0 n) (0, 0) in
  if abs den <? JS.c_1e_9 then 0 else num / den.

(** ** One replication (the body of the loop of [runMonteCarloAsync]) *)

(** [a.map ((val, i) => f val i)] *)
Definition mapi {A B : Type} (f : A -> nat -> B) (a : list A) : list B :=
  map (fun '(i, val) => f val i) (combine (seq 0 (length a)) a).

Record Sample : Type := {
  err_u : list number;
  err_v : list number;
  smp_z : list number;
  smp_x : list number;
  smp_y : list number
}.

(** Lines 144-156: the errors, the instrument, the regressor, the outcome. *)
Definition generateSample (p : SimulationParams) (rng : SeededRNG)
  : Sample * SeededRNG :=
  let '((u, v), rng1) :=
    generateCorrelatedNormals (sampleSize p) (endogeneity p) rng in
  let '((z, _), rng2) := generateCorrelatedNormals (sampleSize p) 0 rng1 in
  let x := mapi (fun val i => ivStrength p * val + JS.get v i) z in
  let y := mapi (fun val i => betaTrue p * val + JS.get u i) x in
  ({| err_u := u; err_v := v; smp_z := z; smp_x := x; smp_y := y |}, rng2).

(** Lines 166-174: the first-stage F statistic. *)
Definition firstStageF (n : Z) (z x : list number) : number :=
  let piHat := estimateOLS z x in
  let xPred := map (fun val => piHat * val) z in
  let residuals := mapi (fun val i => val - JS.get xPred i) x in
  let ssr := fold_left (fun acc val => acc + val * val) residuals 0 in
  let sst := variance x None * JS.ofZ n in
  let rSquared := 1 - ssr / sst in
  (rSquared * (JS.ofZ n - 2)) / (1 - rSquared).

(** What the loop carries from one replication to the next. *)
Record Accum : Type := {
  acc_rng : SeededRNG;
  acc_ols : list number;
  acc_iv : list number;
  acc_f : list number
}.

Definition replication (p : SimulationParams) (a : Accum) : Accum :=
  let (s, rng') := generateSample p (acc_rng a) in
  let betaOLS := estimateOLS (smp_x s) (smp_y s) in
  let betaIV := estimateIV (smp_x s) (smp_y s) (smp_z s) in
  let fStat := firstStageF (sampleSize p) (smp_z s) (smp_x s) in
  {| acc_rng := rng';
     acc_ols := acc_ols a ++ [betaOLS];
     acc_iv := acc_iv a ++ [betaIV];
     acc_f := acc_f a ++ [fStat] |}.

(** ** [runMonteCarloAsync]

    The function is [async]: between two [await]s it runs to completion,
    so the caller can act on it only while it is suspended at a batching
    boundary (line 138, the zero-delay timer, and line 139, [checkPause]).
    The environment of a run says what happens there.  [checkPause] is the
    polling loop the application passes: it resolves once the pause is
    lifted, or never, and does not reject. *)

Record Env : Type := {
  (** [signal.aborted] when the function is called *)
  abortedAtCall : bool;
  (** [abort ()] is called while the run is suspended before replication [r] *)
  abortWhileSuspended : nat -> bool;
  (** the promise of [checkPause ()] awaited before replication [r] resolves *)
  pauseReturns : nat -> bool
}.

(** How the promise settles: with a result, with an error carrying a
    message, or never (a pause that is never lifted). *)
Inductive Outcome : Type :=
| Resolved (result : SimulationResult)
| Rejected (message : String.string)
| Pending.

(** What a run does, in order. *)
Inductive Event : Type :=
| EvCheckAborted (r : nat)    (* line 132 *)
| EvSuspend (r : nat)         (* lines 138-139 *)
| EvPushOLS (r : nat)         (* line 160 *)
| EvPushIV (r : nat)          (* line 164 *)
| EvPushF (r : nat).          (* line 175 *)

Inductive LoopEnd : Type :=
| LoopDone (a : Accum)
| LoopThrow (a : Accum)
| LoopHang (a : Accum).

Definition batchSizeOf (p : SimulationParams) : nat :=
  if (10000 <? sampleSize p)%Z then 1%nat else 10%nat.

(** The [for] loop from replication [r] on, [todo] turns left; [aborted]
    is the signal's flag on entry. *)
Fixpoint loop (env : Env) (p : SimulationParams) (batchSize : nat)
    (todo r : nat) (aborted : bool) (a : Accum) : LoopEnd * list Event :=
  match todo with
  | O => (LoopDone a, [])
  | S todo' =>
      if aborted then (LoopThrow a, [EvCheckAborted r])
      else if (r mod batchSize =? 0)%nat then
        if pauseReturns env r then
          let (e, tr) :=
            loop env p batchSize todo' (S r) (abortWhileSuspended env r)
              (replication p a) in
          (e, EvCheckAborted r :: EvSuspend r
                :: EvPushOLS r :: EvPushIV r :: EvPushF r :: tr)
        else (LoopHang a, [EvCheckAborted r; EvSuspend r])
      else
        let (e, tr) :=
          loop env p batchSize todo' (S r) false (replication p a) in
        (e, EvCheckAborted r :: EvPushOLS r :: EvPushIV r :: EvPushF r :: tr)
  end.

Definition initialAccum (p : SimulationParams) : Accum :=
  {| acc_rng := newSeededRNG (seed p);
     acc_ols := []; acc_iv := []; acc_f := [] |}.

Definition runLoop (env : Env) (p : SimulationParams) : LoopEnd * list Event :=
  loop env p (batchSizeOf p) (Z.to_nat (replications p)) 0
    (abortedAtCall env) (initialAccum p).

(** Lines 178-189. *)
Definition summarize (p : SimulationParams) (a : Accum) : SimulationResult :=
  let olsMean := mean (acc_ols a) in
  let ivMean := mean (acc_iv a) in
  {| olsEstimates := acc_ols a;
     ivEstimates := acc_iv a;
     fStats := acc_f a;
     olsBias := olsMean - betaTrue p;
     ivBias := ivMean - betaTrue p;
     olsVariance := variance (acc_ols a) None;
     ivVariance := variance (acc_iv a) None |}.

Definition runMonteCarloAsync (env : Env) (p : SimulationParams) : Outcome :=
  match fst (runLoop env p) with
  | LoopDone a => Resolved (summarize p a)
  | LoopThrow _ => Rejected cancelledMessage
  | LoopHang _ => Pending
  end.

Definition runEvents (env : Env) (p : SimulationParams) : list Event :=
  snd (runLoop env p).

(** ** Notions used to state the properties of the driver *)

(** [k] replications in a row, with nothing in between. *)
Fixpoint iterReplication (p : SimulationParams) (k : nat) (a : Accum) : Accum :=
  match k with
  | O => a
  | S k' => iterReplication p k' (replication p a)
  end.

(** The result of a run that nothing interrupts: a function of the
    parameters alone. *)
Definition completedResult (p : SimulationParams) : SimulationResult :=
  summarize p (iterReplication p (Z.to_nat (replications p)) (initialAccum p)).

Definition accumOf (e : LoopEnd) : Accum :=
  match e with LoopDone a | LoopThrow a | LoopHang a => a end.

Definition isDone (e : LoopEnd) : bool :=
  match e with LoopDone _ => true | _ => false end.

(** The events of one full turn of the loop, and of [k] turns from [r]. *)
Definition block (batchSize r : nat) : list Event :=
  EvCheckAborted r
    :: (if (r mod batchSize =? 0)%nat then [EvSuspend r] else [])
    ++ [EvPushOLS r; EvPushIV r; EvPushF r].

Definition blocks (batchSize r k : nat) : list Event :=
  flat_map (block batchSize) (seq r k).

(** The events of the turn at which the loop stops early. *)
Definition lastEvents (e : LoopEnd) (r : nat) : list Event :=
  match e with
  | LoopDone _ => []
  | LoopThrow _ => [EvCheckAborted r]
  | LoopHang _ => [EvCheckAborted r; EvSuspend r]
  end.

(** [signal.aborted] as the check that opens replication [r] reads it,
    when the run gets that far: set at the call, or set during one of the
    suspensions before. *)
Fixpoint abortedBy (env : Env) (batchSize r : nat) : bool :=
  match r with
  | O => abortedAtCall env
  | S r' =>
      abortedBy env batchSize r'
      || ((r' mod batchSize =? 0)%nat && abortWhileSuspended env r')
  end.

Definition isCheck (e : Event) : bool :=
  match e with EvCheckAborted _ => true | _ => false end.

Definition isSuspend (e : Event) : bool :=
  match e with EvSuspend _ => true | _ => false end.

End Engine.

(** ** [createHistogramData] *)

Section Histogram.

Local Open Scope float_scope.

(** [allValues.sort ((a, b) => a - b)].  For a consistent comparator (no
    NaN among the values) ECMAScript fixes the result: the stable sort,
    which insertion computes.  With a NaN among the values the comparator
    is not consistent, the order is left to the implementation, and engines
    do not return the order computed here: the definition stands for the
    source on sequences without NaN only, and every property below that
    depends on the order assumes there is none. *)
Fixpoint insertNumber (x : number) (l : list number) : list number :=
  match l with
  | [] => [x]
  | h :: t => if x - h <? 0 then x :: h :: t else h :: insertNumber x t
  end.

Definition sortNumbers (l : list number) : list number :=
  fold_left (fun acc x => insertNumber x acc) l [].

(** [a[Math.floor (len * q)] ?? fallback] *)
Definition percentileOr (sorted : list number) (q fallback : number) : number :=
  match JS.floorIndex (JS.ofNat (length sorted) * q) with
  | Some k => match nth_error sorted k with Some v => v | None => fallback end
  | None => fallback
  end.

(** The body of the loop over the bins, at counter [i].  The counter is an
    integer-valued number, held as a natural number: [i + 1] is the number
    of its successor. *)
Definition histogramBin (ols iv : list number) (start step : number)
    (i : nat) : BinData :=
  let rangeStart := start + JS.ofNat i * step in
  let rangeEnd := start + JS.ofNat (S i) * step in
  let midpoint := (rangeStart + rangeEnd) / 2 in
  let inBin := fun v : number => (rangeStart <=? v) && (v <? rangeEnd) in
  let olsCount := length (filter inBin ols) in
  let ivCount := length (filter inBin iv) in
  {| rangeStart := rangeStart;
     rangeEnd := rangeEnd;
     olsFrequency :=
       if (length ols =? 0)%nat then 0
       else JS.ofNat olsCount / JS.ofNat (length ols);
     ivFrequency :=
       if (length iv =? 0)%nat then 0
       else JS.ofNat ivCount / JS.ofNat (length iv);
     midpoint := midpoint |}.

(** Lines 199-206: the trimmed, padded range and the step. *)
Definition histogramRange (allValues : list number) (bins : nat)
  : number * number :=
  let sorted := sortNumbers allValues in
  let minVal := percentileOr sorted JS.c_0_02 (JS.Math_min sorted) in
  let maxVal := percentileOr sorted JS.c_0_98 (JS.Math_max sorted) in
  let range := maxVal - minVal in
  let start := minVal - range * JS.c_0_1 in
  let end_ := maxVal + range * JS.c_0_1 in
  let step := (end_ - start) / JS.ofNat bins in
  (start, step).

Definition createHistogramData (ols iv : list number) (bins : nat)
  : list BinData :=
  let allValues := ols ++ iv in
  if (length allValues =? 0)%nat then []
  else
    let (start, step) := histogramRange allValues bins in
    map (histogramBin ols iv start step) (seq 0 bins).

Definition defaultBins : nat := 40.

End Histogram.

(** ** A concrete [Math] library

    Used to run the engine on concrete inputs.  ECMAScript asks of [Math.log],
    [Math.cos] and [Math.sin] only an approximation of the mathematical
    function; these are series evaluated in binary64.  [Math.pow (x, 2)], the
    one call the engine makes, is the product [x * x]. *)

Module RefMath.

Local Open Scope float_scope.

Definition ln2 : number := 0x1.62e42fefa39efp-1.
Definition twoPi : number := 2 * JS.Math_PI.

(** sum of [term k] for [k] below [n], smallest terms first *)
Fixpoint sumTerms (term : nat -> number) (n : nat) : number :=
  match n with
  | O => 0
  | S k => sumTerms term k + term k
  end.

Fixpoint powNat (x : number) (n : nat) : number :=
  match n with
  | O => 1
  | S k => x * powNat x k
  end.

Fixpoint factorial (n : nat) : number :=
  match n with
  | O => 1
  | S k => JS.ofNat n * factorial k
  end.

(** [log x = e * ln 2 + 2 * atanh ((m - 1) / (m + 1))] for [x = m * 2^e] *)
Definition log (x : number) : number :=
  if is_nan x || (x <? 0) then nan
  else if x =? 0 then neg_infinity
  else if x =? infinity then infinity
  else
    let (m, e) := Z.frexp x in
    let s := (m - 1) / (m + 1) in
    JS.ofZ e * ln2
    + 2 * sumTerms (fun k => powNat s (2 * k + 1) / JS.ofNat (2 * k + 1)) 20.

Definition reduce (t : number) : number :=
  t - JS.ofZ (JS.truncZ (t / twoPi)) * twoPi.

Definition cos (t : number) : number :=
  if is_nan t || is_infinity t then nan
  else
    let r := reduce t in
    sumTerms (fun k => (if Nat.even k then 1 else -1)
                       * powNat r (2 * k) / factorial (2 * k)) 24.

Definition sin (t : number) : number :=
  if is_nan t || is_infinity t then nan
  else
    let r := reduce t in
    sumTerms (fun k => (if Nat.even k then 1 else -1)
                       * powNat r (2 * k + 1) / factorial (2 * k + 1)) 24.

Definition pow (x y : number) : number :=
  if y =? 2 then x * x
  else if y =? 1 then x
  else if y =? 0 then 1
  else nan.

Definition lib : MathLib :=
  {| Math_log := log; Math_cos := cos; Math_sin := sin; Math_pow := pow |}.

End RefMath.

(** ** Notions used to state the properties of the estimators and of the
    histogram *)

Section Statements.

Local Open Scope float_scope.

(** [Σ (aᵢ − ā)(bᵢ − b̄)], summed from the first pair on. *)
Definition crossSum (a b : list number) : number :=
  fold_left (fun acc '(ai, bi) => acc + (ai - mean a) * (bi - mean b))
    (combine a b) 0.

(** [Σ (xᵢ − π̂·zᵢ)²], summed from the first pair on. *)
Definition residualSumOfSquares (piHat : number) (x z : list number) : number :=
  fold_left (fun acc '(xi, zi) => acc + (xi - piHat * zi) * (xi - piHat * zi))
    (combine x z) 0.

(** [b] does not sort before [a]. *)
Definition notBefore (a b : number) : Prop := (b - a <? 0) = false.

(** [a] is at most [b]. *)
Definition ascending (a b : number) : Prop := (a <=? b) = true.

(** The configurations the specification calls invalid. *)
Definition invalidConfiguration (p : SimulationParams) : bool :=
  (sampleSize p <? 2)%Z
  || (replications p <? 1)%Z
  || negb ((-1 <? endogeneity p) && (endogeneity p <? 1)).

(** Two facts of binary64 arithmetic that are checked by evaluation on every
    integer up to [checkedLengths].  For a length: the float product
    [len * 0.02], floored, is [len / 50], and [len * 0.98], floored, is
    [49 * len / 50].  For a loop counter: [i + 1] is the number holding the
    next integer. *)
Definition percentileIndicesExact (len : Z) : bool :=
  match JS.floorZ (JS.ofZ len * JS.c_0_02),
        JS.floorZ (JS.ofZ len * JS.c_0_98) with
  | Some lo, Some hi => (lo =? len / 50)%Z && (hi =? 49 * len / 50)%Z
  | _, _ => false
  end.

Definition incrementExact (i : Z) : bool :=
  PrimFloat.Leibniz.eqb (JS.ofZ i + 1) (JS.ofZ (i + 1)).

Fixpoint checkedFrom (ok : Z -> bool) (from : Z) (count : nat) : bool :=
  match count with
  | O => true
  | S count' => ok from && checkedFrom ok (from + 1) count'
  end.

Definition checkedLengths : Z := 100000.

End Statements.

(** ** Environments and parameters of the concrete runs *)

Section Inputs.

Local Open Scope float_scope.

Definition quietEnv : Env :=
  {| abortedAtCall := false;
     abortWhileSuspended := fun _ => false;
     pauseReturns := fun _ => true |}.

(** The caller aborts while the run is suspended before replication [r0]. *)
Definition abortDuring (r0 : nat) : Env :=
  {| abortedAtCall := false;
     abortWhileSuspended := Nat.eqb r0;
     pauseReturns := fun _ => true |}.

(** The defaults of the application, for a given size and count. *)
Definition demoParams (n r : Z) : SimulationParams :=
  {| sampleSize := n;
     replications := r;
     ivStrength := 0.5;
     endogeneity := 0x1.999999999999ap-1;      (* 0.8 *)
     betaTrue := 1;
     seed := 12345 |}.

Definition tooSmallSample : SimulationParams :=
  {| sampleSize := 1; replications := 2; ivStrength := 0.5;
     endogeneity := 0.5; betaTrue := 1; seed := 12345 |}.

Definition noReplication : SimulationParams :=
  {| sampleSize := 500; replications := 0; ivStrength := 0.5;
     endogeneity := 0.5; betaTrue := 1; seed := 12345 |}.

(** A hundred estimates, out of order, two of them far out: the IV
    estimates -1000 and 1000. *)
Definition outlyingOLS : list number :=
  map JS.ofNat (rev (seq 1 50)).

Definition outlyingIV : list number :=
  [1000; -1000] ++ map JS.ofNat (seq 51 48).

Definition correlationOutOfRange : SimulationParams :=
  {| sampleSize := 3; replications := 2; ivStrength := 0.5;
     endogeneity := 1.5; betaTrue := 1; seed := 12345 |}.

End Inputs.

(** ** The stream of draws *)

(** The generator after one call of [next ()], and after [k] calls. *)
Definition advance (rng : SeededRNG) : SeededRNG := snd (next rng).

Definition afterDraws (k : nat) (rng : SeededRNG) : SeededRNG :=
  Nat.iter k advance rng.

Section EngineParts.

Context {M : MathLib}.

Local Open Scope float_scope.

(** Lines 35 and 39: the number handed to [Math.log], the first draw after
    the guard. *)
Definition logArgument (rng : SeededRNG) : number :=
  let u1 := fst (next rng) in
  if u1 <=? 0 then JS.c_1e_7 else u1.

(** Lines 41-48: the pair [(valU, valV)] made from the guarded first draw
    [a] and the second draw [u2]. *)
Definition boxMuller (rho a u2 : number) : number * number :=
  let z1 := sqrt (-2 * Math_log a) * Math_cos (2 * JS.Math_PI * u2) in
  let z2 := sqrt (-2 * Math_log a) * Math_sin (2 * JS.Math_PI * u2) in
  (rho * z1 + sqrt (1 - rho * rho) * z2, z1).

(** The sample a replication generates from a generator state. *)
Definition sampleAt (p : SimulationParams) (rng : SeededRNG) : Sample :=
  fst (generateSample p rng).


End EngineParts.

(** ** The bins as sets of values *)

Section Bins.

Local Open Scope float_scope.

(** Lines 215 and 216: the test that counts [v] in a bin. *)
Definition inBin (b : BinData) (v : number) : bool :=
  (rangeStart b <=? v) && (v <? rangeEnd b).

End Bins.

(** ** The application ([App.tsx]) and its controls ([ControlPanel.tsx]) *)

Module App.

Local Open Scope float_scope.

(** The state of the component: the five parameters (the two counts as the
    engine reads them), the result and the chart, the two execution flags,
    and whether [abortControllerRef.current] holds a controller. *)
Record State : Type := {
  ivStrength : number;
  endogeneity : number;
  sampleSize : Z;
  replications : Z;
  seed : number;
  result : option SimulationResult;
  chartData : list BinData;
  isRunning : bool;
  isPaused : bool;
  abortController : bool
}.

Definition BETA_TRUE : number := 1.

(** Lines 11-26. *)
Definition initialState : State :=
  {| ivStrength := 0.5;
     endogeneity := 0x1.999999999999ap-1;      (* 0.8 *)
     sampleSize := 500;
     replications := 500;
     seed := 12345;
     result := None;
     chartData := [];
     isRunning := false;
     isPaused := false;
     abortController := false |}.

(** Lines 73-80: the parameter object of the call. *)
Definition params (st : State) : SimulationParams :=
  Build_SimulationParams (sampleSize st) (replications st) (ivStrength st)
    (endogeneity st) BETA_TRUE (seed st).

(** Lines 64-70: the flags are set, the result is cleared (the chart is
    not), a new controller is stored. *)
Definition started (st : State) : State :=
  {| ivStrength := ivStrength st;
     endogeneity := endogeneity st;
     sampleSize := sampleSize st;
     replications := replications st;
     seed := seed st;
     result := None;
     chartData := chartData st;
     isRunning := true;
     isPaused := false;
     abortController := true |}.

(** Lines 84-85: [setResult (res); setChartData (bins)]. *)
Definition shown (res : SimulationResult) (bins : list BinData) (st : State)
  : State :=
  {| ivStrength := ivStrength st;
     endogeneity := endogeneity st;
     sampleSize := sampleSize st;
     replications := replications st;
     seed := seed st;
     result := Some res;
     chartData := bins;
     isRunning := isRunning st;
     isPaused := isPaused st;
     abortController := abortController st |}.

(** Lines 93-95, the [finally] block. *)
Definition finished (st : State) : State :=
  {| ivStrength := ivStrength st;
     endogeneity := endogeneity st;
     sampleSize := sampleSize st;
     replications := replications st;
     seed := seed st;
     result := result st;
     chartData := chartData st;
     isRunning := false;
     isPaused := false;
     abortController := false |}.

(** Lines 99-101: [setIsPaused (!isPaused)]. *)
Definition handlePause (st : State) : State :=
  {| ivStrength := ivStrength st;
     endogeneity := endogeneity st;
     sampleSize := sampleSize st;
     replications := replications st;
     seed := seed st;
     result := result st;
     chartData := chartData st;
     isRunning := isRunning st;
     isPaused := negb (isPaused st);
     abortController := abortController st |}.

(** The handler has returned, leaving the state [st], or is still waiting
    for the run, the state being [st] meanwhile. *)
Inductive Handler : Type :=
| Returned (st : State)
| Waiting (st : State).

(** The signal of the controller created at line 69 is not aborted when
    the run is called. *)
Definition freshSignal (env : Env) : Env :=
  {| abortedAtCall := false;
     abortWhileSuspended := abortWhileSuspended env;
     pauseReturns := pauseReturns env |}.

(** Lines 61-97.  [env] says when the user stops the run and whether each
    pause is lifted.  Both branches of the [catch] only log.  The run stays
    pending only in a pause that is not lifted ([checkPause] returns as
    soon as [isPaused] is false), that is after the user has pressed Pause
    during the run: the state is then the started one with the pause on. *)
Definition handleRunSimulation {M : MathLib} (env : Env) (st : State)
  : Handler :=
  if isRunning st then Returned st
  else
    match runMonteCarloAsync (freshSignal env) (params st) with
    | Resolved res =>
        let bins :=
          createHistogramData (olsEstimates res) (ivEstimates res) defaultBins in
        Returned (finished (shown res bins (started st)))
    | Rejected _ => Returned (finished (started st))
    | Pending => Waiting (handlePause (started st))
    end.

(** *** [handleDownloadData], lines 111-128: the text of the CSV file *)

Local Open Scope string_scope.

Definition newline : String.string :=
  String.String (Ascii.ascii_of_nat 10) String.EmptyString.

(** Line 116. *)
Definition csvHeader : String.string :=
  String.append
    "data:text/csv;charset=utf-8,Replication,OLS_Estimate,IV_Estimate,F_Statistic"
    newline.

(** The decimal spelling of a row number. *)
Definition decimal (n : nat) : String.string :=
  DecimalString.NilEmpty.string_of_uint (Nat.to_uint n).

Local Close Scope string_scope.

Section CsvFile.

(** [x.toFixed (digits)] *)
Variable toFixed : number -> nat -> String.string.

Local Open Scope string_scope.

(** Lines 121-126. *)
Definition csvRow (i : nat) (o v f : number) : String.string :=
  String.concat ","
    [decimal (i + 1); toFixed o 6; toFixed v 6; toFixed f 6].

(** Lines 120-128: the loop from row [i] on, [todo] rows left.  An entry
    missing from a sequence is [undefined], and calling [toFixed] on it
    throws. *)
Fixpoint csvLoop (res : SimulationResult) (todo i : nat)
    (csvContent : String.string) : option String.string :=
  match todo with
  | O => Some csvContent
  | S todo' =>
      match nth_error (olsEstimates res) i,
            nth_error (ivEstimates res) i,
            nth_error (fStats res) i with
      | Some o, Some v, Some f =>
          csvLoop res todo' (S i)
            (String.append csvContent (String.append (csvRow i o v f) newline))
      | _, _, _ => None
      end
  end.

Local Close Scope string_scope.

(** The lines the loop writes for the rows [from], ..., [from + count - 1]
    of a result, each spelling the three numbers at its index. *)
Definition csvRows (res : SimulationResult) (from count : nat)
  : String.string :=
  fold_right String.append String.EmptyString
    (map (fun i =>
            String.append
              (csvRow i (JS.get (olsEstimates res) i)
                 (JS.get (ivEstimates res) i) (JS.get (fStats res) i))
              newline)
       (seq from count)).

(** Nothing is offered, a [TypeError] is thrown, or the file is offered
    with this content. *)
Inductive Download : Type :=
| NoDownload
| DownloadError
| Downloaded (csvContent : String.string).

Definition handleDownloadData (st : State) : Download :=
  match result st with
  | None => NoDownload
  | Some res =>
      match csvLoop res (length (olsEstimates res)) 0 csvHeader with
      | Some csvContent => Downloaded csvContent
      | None => DownloadError
      end
  end.

End CsvFile.

(** The state that shows a given result. *)
Definition showing (res : SimulationResult) : State :=
  shown res [] initialState.

(** *** The two number fields of the control panel *)

(** [x || 0] on a number: NaN and the two zeros are falsy. *)
Definition orZero (x : number) : number :=
  if is_nan x || (x =? 0) then 0 else x.

(** [Math.max (10, parseInt (e.target.value) || 0)], of the number the
    parse returns (an integer, an infinity or NaN). *)
Definition replicationsOnChange (parsed : number) : number :=
  JS.max2 10 (orZero parsed).

(** [parseInt (e.target.value) || 0] *)
Definition seedOnChange (parsed : number) : number := orZero parsed.

End App.

(** ** More environments and parameters of the concrete runs *)

Section MoreInputs.

Local Open Scope float_scope.

(** The user pauses the run at the boundary before replication [r0], stops
    it during that pause and never resumes. *)
Definition stoppedWhilePaused (r0 : nat) : Env :=
  {| abortedAtCall := false;
     abortWhileSuspended := Nat.eqb r0;
     pauseReturns := fun r => negb (Nat.eqb r0 r) |}.

(** The signal is aborted before the run is called. *)
Definition alreadyAborted : Env :=
  {| abortedAtCall := true;
     abortWhileSuspended := fun _ => false;
     pauseReturns := fun _ => true |}.

Definition emptySample : SimulationParams :=
  {| sampleSize := 0; replications := 3; ivStrength := 0.5;
     endogeneity := 0.5; betaTrue := 1; seed := 12345 |}.


(** A result whose IV sequence is one entry short. *)
Definition unevenResult : SimulationResult :=
  {| olsEstimates := [1; 2]; ivEstimates := [1]; fStats := [1; 2];
     olsBias := 0; ivBias := 0; olsVariance := 0; ivVariance := 0 |}.

Local Open Scope string_scope.

(** A stand-in for [toFixed], enough to count lines. *)
Definition noDigits (x : number) (digits : nat) : String.string := "0".

End MoreInputs.

(** * Properties of the replication driver *)

Section DriverFacts.

Context {M : MathLib}.

Lemma replication_lengths (p : SimulationParams) (a : Accum) :
  length (acc_ols (replication p a)) = S (length (acc_ols a))
  /\ length (acc_iv (replication p a)) = S (length (acc_iv a))
  /\ length (acc_f (replication p a)) = S (length (acc_f a)).
Proof.
  unfold replication. destruct (generateSample p (acc_rng a)) as [s g].
  cbn [acc_ols acc_iv acc_f]. rewrite !length_app. cbn [length]. lia.
Qed.

Lemma iterReplication_lengths (p : SimulationParams) (k : nat) :
  forall a,
    length (acc_ols (iterReplication p k a)) = (length (acc_ols a) + k)%nat
    /\ length (acc_iv (iterReplication p k a)) = (length (acc_iv a) + k)%nat
    /\ length (acc_f (iterReplication p k a)) = (length (acc_f a) + k)%nat.
Proof.
  induction k as [|k IH]; intros a; cbn [iterReplication].
  - lia.
  - destruct (IH (replication p a)) as (H1 & H2 & H3).
    destruct (replication_lengths p a) as (L1 & L2 & L3). lia.
Qed.

Lemma blocks_S (K r k : nat) :
  blocks K r (S k) = block K r ++ blocks K (S r) k.
Proof. reflexivity. Qed.

Lemma checks_in_blocks (K k : nat) :
  forall r, length (filter isCheck (blocks K r k)) = k.
Proof.
  induction k as [|k IH]; intros r; [reflexivity|].
  rewrite blocks_S, filter_app, length_app, IH. unfold block.
  destruct (r mod K =? 0)%nat; reflexivity.
Qed.

(** The shape of every execution of the loop: [k] full turns, then the
    events of the stop; all the turns when the loop runs to its end, fewer
    when it stops early. *)
Lemma loop_shape (env : Env) (p : SimulationParams) (K : nat) :
  forall todo r aborted a,
    let res := loop env p K todo r aborted a in
    exists k,
      accumOf (fst res) = iterReplication p k a
      /\ snd res = blocks K r k ++ lastEvents (fst res) (r + k)
      /\ (if isDone (fst res) then k = todo else (k < todo)%nat).
Proof.
  induction todo as [|todo IH]; intros r aborted a; cbn [loop].
  - exists 0%nat. cbn. auto.
  - destruct aborted.
    { exists 0%nat. cbn. rewrite Nat.add_0_r. repeat split; auto; lia. }
    destruct (r mod K =? 0)%nat eqn:HB.
    + destruct (pauseReturns env r).
      * specialize (IH (S r) (abortWhileSuspended env r) (replication p a)).
        cbn zeta in IH.
        destruct (loop env p K todo (S r) (abortWhileSuspended env r)
                    (replication p a)) as [e tr].
        destruct IH as (k & Ha & Ht & Hd). cbn [fst snd] in *.
        exists (S k). rewrite blocks_S. unfold block at 1. rewrite HB.
        cbn [iterReplication app]. rewrite Ht, Nat.add_succ_r.
        repeat split; auto. destruct (isDone e); lia.
      * exists 0%nat. cbn. rewrite Nat.add_0_r. repeat split; auto; lia.
    + specialize (IH (S r) false (replication p a)). cbn zeta in IH.
      destruct (loop env p K todo (S r) false (replication p a)) as [e tr].
      destruct IH as (k & Ha & Ht & Hd). cbn [fst snd] in *.
      exists (S k). rewrite blocks_S. unfold block at 1. rewrite HB.
      cbn [iterReplication app]. rewrite Ht, Nat.add_succ_r.
      repeat split; auto. destruct (isDone e); lia.
Qed.

Lemma loop_done (env : Env) (p : SimulationParams) (K todo r : nat)
    (aborted : bool) (a a' : Accum) :
  fst (loop env p K todo r aborted a) = LoopDone a' ->
  a' = iterReplication p todo a.
Proof.
  intros H. destruct (loop_shape env p K todo r aborted a) as (k & Ha & _ & Hd).
  rewrite H in Ha, Hd. cbn in Ha, Hd. rewrite Hd in Ha. exact Ha.
Qed.

(** A loop whose checks all read an unset flag, and whose pauses are all
    lifted, runs every turn. *)
Lemma loop_completes (env : Env) (p : SimulationParams) (K : nat) :
  forall todo r a,
    (forall b, (r <= b < r + todo)%nat -> abortedBy env K b = false) ->
    (forall b, (r <= b < r + todo)%nat -> pauseReturns env b = true) ->
    fst (loop env p K todo r (abortedBy env K r) a)
    = LoopDone (iterReplication p todo a).
Proof.
  induction todo as [|todo IH]; intros r a HA HP; cbn [loop].
  - reflexivity.
  - rewrite (HA r) by lia.
    assert (Hnext : abortedBy env K (S r)
                    = ((r mod K =? 0)%nat && abortWhileSuspended env r))
      by (cbn [abortedBy]; rewrite (HA r) by lia; reflexivity).
    specialize (IH (S r) (replication p a)).
    rewrite Hnext in IH. cbn [iterReplication].
    destruct (r mod K =? 0)%nat; cbn [andb] in IH.
    + rewrite (HP r) by lia.
      destruct (loop env p K todo (S r) (abortWhileSuspended env r)
                  (replication p a)).
      apply IH; intros b Hb; [apply HA | apply HP]; lia.
    + destruct (loop env p K todo (S r) false (replication p a)).
      apply IH; intros b Hb; [apply HA | apply HP]; lia.
Qed.

Lemma abortedBy_never (env : Env) (K : nat) :
  abortedAtCall env = false ->
  (forall r, abortWhileSuspended env r = false) ->
  forall r, abortedBy env K r = false.
Proof.
  intros H0 HA. induction r as [|r IH]; cbn [abortedBy].
  - exact H0.
  - rewrite IH, HA, andb_false_r. reflexivity.
Qed.

(** Once the flag is set by the time of some check the loop reaches, the
    loop throws. *)
Lemma loop_throws (env : Env) (p : SimulationParams) (K target : nat) :
  abortedBy env K target = true ->
  (forall b, (b < target)%nat -> pauseReturns env b = true) ->
  forall todo r a,
    (r <= target < r + todo)%nat ->
    exists a', fst (loop env p K todo r (abortedBy env K r) a) = LoopThrow a'.
Proof.
  intros HT HP. induction todo as [|todo IH]; intros r a Hr; [lia|].
  cbn [loop]. destruct (abortedBy env K r) eqn:Hab.
  - exists a. reflexivity.
  - assert (r <> target) by (intros ->; congruence).
    assert (Hnext : abortedBy env K (S r)
                    = ((r mod K =? 0)%nat && abortWhileSuspended env r))
      by (cbn [abortedBy]; rewrite Hab; reflexivity).
    destruct (IH (S r) (replication p a)) as [a' Ha']; [lia|].
    rewrite Hnext in Ha'.
    destruct (r mod K =? 0)%nat.
    + rewrite HP by lia. cbn [andb] in Ha'.
      destruct (loop env p K todo (S r) (abortWhileSuspended env r)
                  (replication p a)).
      exists a'. exact Ha'.
    + cbn [andb] in Ha'.
      destruct (loop env p K todo (S r) false (replication p a)).
      exists a'. exact Ha'.
Qed.

End DriverFacts.


(** * Specified properties of the replication driver *)

Section DriverClaims.

Context {M : MathLib}.

Lemma run_resolved (env : Env) (p : SimulationParams) (res : SimulationResult) :
  runMonteCarloAsync env p = Resolved res -> res = completedResult p.
Proof.
  unfold runMonteCarloAsync, completedResult, runLoop.
  destruct (fst (loop env p (batchSizeOf p) (Z.to_nat (replications p)) 0
                   (abortedAtCall env) (initialAccum p))) as [a|a|a] eqn:E;
    intros H; try discriminate.
  injection H as <-. f_equal. exact (loop_done _ _ _ _ _ _ _ _ E).
Qed.

Lemma run_completes (env : Env) (p : SimulationParams) :
  (forall r, (r < Z.to_nat (replications p))%nat ->
             abortedBy env (batchSizeOf p) r = false) ->
  (forall r, (r < Z.to_nat (replications p))%nat -> pauseReturns env r = true) ->
  runMonteCarloAsync env p = Resolved (completedResult p).
Proof.
  intros HA HP. unfold runMonteCarloAsync, completedResult, runLoop.
  change (abortedAtCall env) with (abortedBy env (batchSizeOf p) 0).
  rewrite loop_completes; [reflexivity| |]; intros b Hb; [apply HA | apply HP]; lia.
Qed.

Lemma completedResult_lengths (p : SimulationParams) :
  length (olsEstimates (completedResult p)) = Z.to_nat (replications p)
  /\ length (ivEstimates (completedResult p)) = Z.to_nat (replications p)
  /\ length (fStats (completedResult p)) = Z.to_nat (replications p).
Proof.
  unfold completedResult, summarize. cbn [olsEstimates ivEstimates fStats].
  destruct (iterReplication_lengths p (Z.to_nat (replications p)) (initialAccum p))
    as (H1 & H2 & H3).
  cbn [initialAccum acc_ols acc_iv acc_f length] in *. lia.
Qed.

(** C1. Two runs on the same parameters that both complete return the same
    result, whatever happened around them (how often they were paused,
    whether a cancellation arrived too late to be seen): the three estimate
    sequences and the four summary statistics are equal, number by number. *)
Theorem run_deterministic (p : SimulationParams) (env1 env2 : Env)
    (res1 res2 : SimulationResult) :
  runMonteCarloAsync env1 p = Resolved res1 ->
  runMonteCarloAsync env2 p = Resolved res2 ->
  res1 = res2.
Proof.
  intros H1 H2.
  rewrite (run_resolved _ _ _ H1), (run_resolved _ _ _ H2). reflexivity.
Qed.

(** C2 (amended). The run entry point checks nothing about the
    configuration: for every parameter record, a run that is never aborted
    and whose pause check always returns resolves, with one entry per
    replication in each sequence (none when [replications < 1]); and the only
    error any run can reject with is the cancellation. *)
Theorem run_accepts_every_configuration (p : SimulationParams) (env : Env) :
  abortedAtCall env = false ->
  (forall r, abortWhileSuspended env r = false) ->
  (forall r, pauseReturns env r = true) ->
  (exists res,
      runMonteCarloAsync env p = Resolved res
      /\ length (olsEstimates res) = Z.to_nat (replications p)
      /\ length (ivEstimates res) = Z.to_nat (replications p)
      /\ length (fStats res) = Z.to_nat (replications p))
  /\ (forall env' message,
         runMonteCarloAsync env' p = Rejected message ->
         message = cancelledMessage).
Proof.
  intros H0 HA HP. split.
  - exists (completedResult p). split.
    + apply run_completes; intros r _; [|apply HP].
      apply abortedBy_never; assumption.
    + apply completedResult_lengths.
  - intros env' message. unfold runMonteCarloAsync.
    destruct (fst (runLoop env' p)); intros H; try discriminate.
    injection H as <-. reflexivity.
Qed.

(** C4 (amended). Provided the pause check returns, a run is cancelled
    exactly when the check that opens one of its replications reads the flag
    set: then it rejects with the cancellation error and hands out no result
    at all.  A cancellation that no such check reads (one requested while
    the last batch is suspended) changes nothing: the run resolves with the
    full result. *)
Theorem cancellation_seen_at_a_check (p : SimulationParams) (env : Env) :
  (forall b, pauseReturns env b = true) ->
  ((exists r, (r < Z.to_nat (replications p))%nat
              /\ abortedBy env (batchSizeOf p) r = true) ->
   runMonteCarloAsync env p = Rejected cancelledMessage)
  /\ ((forall r, (r < Z.to_nat (replications p))%nat ->
                 abortedBy env (batchSizeOf p) r = false) ->
      runMonteCarloAsync env p = Resolved (completedResult p)).
Proof.
  intros HP. split.
  - intros (r & Hr & Hab).
    destruct (loop_throws env p (batchSizeOf p) r Hab (fun b _ => HP b)
                (Z.to_nat (replications p)) 0%nat (initialAccum p)) as [a' Ha'];
      [lia|].
    unfold runMonteCarloAsync, runLoop.
    change (abortedAtCall env) with (abortedBy env (batchSizeOf p) 0).
    rewrite Ha'. reflexivity.
  - intros HA. apply run_completes; auto.
Qed.

(** C5 (amended). The flag is read once per replication, as its first
    step, not once per batch; the suspension (zero-delay timer and pause
    check) comes right after that read, once every [K] replications, [K]
    being 1 above 10000 observations and 10 otherwise.  Nothing else happens
    between that point and the three pushes of the replication, so when the
    loop stops at replication [k] -- thrown or held in pause -- exactly [k]
    replications have been carried out in full and each of the three
    sequences holds [k] entries; the flag has then been read [k + 1] times,
    and [k] times in a run that completes. *)
Theorem run_event_order (p : SimulationParams) (env : Env) :
  let K := if (10000 <? sampleSize p)%Z then 1%nat else 10%nat in
  let stop := fst (runLoop env p) in
  exists k,
    runEvents env p = blocks K 0 k ++ lastEvents stop k
    /\ length (acc_ols (accumOf stop)) = k
    /\ length (acc_iv (accumOf stop)) = k
    /\ length (acc_f (accumOf stop)) = k
    /\ length (filter isCheck (runEvents env p))
       = (k + if isDone stop then 0 else 1)%nat
    /\ (if isDone stop then k = Z.to_nat (replications p)
        else (k < Z.to_nat (replications p))%nat).
Proof.
  cbv zeta. unfold runEvents, runLoop.
  destruct (loop_shape env p (batchSizeOf p) (Z.to_nat (replications p)) 0
              (abortedAtCall env) (initialAccum p)) as (k & Ha & Ht & Hd).
  exists k. rewrite Ha.
  destruct (iterReplication_lengths p k (initialAccum p)) as (L1 & L2 & L3).
  cbn [initialAccum acc_ols acc_iv acc_f length] in L1, L2, L3.
  repeat split; auto.
  rewrite Ht, filter_app, length_app, checks_in_blocks.
  destruct (fst (loop env p (batchSizeOf p) (Z.to_nat (replications p)) 0
                   (abortedAtCall env) (initialAccum p))); reflexivity.
Qed.

End DriverClaims.

(** * Sums over two sequences, as the specification writes them *)

Section Sums.

Local Open Scope float_scope.

Lemma fold_left_pair {A : Type} (f g : number -> A -> number) (l : list A) :
  forall n d,
    fold_left (fun '(n, d) i => (f n i, g d i)) l (n, d)
    = (fold_left f l n, fold_left g l d).
Proof.
  induction l as [|i l IH]; intros n d; cbn [fold_left]; [reflexivity|apply IH].
Qed.

Lemma fold_left_map_list {A B C : Type} (f : A -> C -> A) (g : B -> C)
    (l : list B) :
  forall s, fold_left f (map g l) s = fold_left (fun acc x => f acc (g x)) l s.
Proof.
  induction l as [|x l IH]; intros s; cbn [map fold_left]; [reflexivity|apply IH].
Qed.

Lemma fold_left_ext_in {A B : Type} (f g : A -> B -> A) (l : list B) :
  (forall x acc, In x l -> f acc x = g acc x) ->
  forall s, fold_left f l s = fold_left g l s.
Proof.
  induction l as [|x l IH]; intros H s; cbn [fold_left]; [reflexivity|].
  rewrite (H x s) by (left; reflexivity).
  apply IH. intros y acc Hy. apply H. right. exact Hy.
Qed.

(** Two arrays of one length, read index by index, are their [combine]. *)
Lemma combine_by_index (a b : list number) :
  length b = length a ->
  combine a b = map (fun i => (JS.get a i, JS.get b i)) (seq 0 (length a)).
Proof.
  intros Hb.
  apply nth_ext with (d := (nan, nan))
                     (d' := (JS.get a (length a), JS.get b (length a))).
  - rewrite length_combine, length_map, length_seq, Hb. apply Nat.min_id.
  - intros i Hi. rewrite length_combine, Hb, Nat.min_id in Hi.
    rewrite combine_nth by (symmetry; exact Hb).
    rewrite (map_nth (fun i => (JS.get a i, JS.get b i))).
    rewrite seq_nth by lia. reflexivity.
Qed.

Lemma length_mapi {A B : Type} (f : A -> nat -> B) (a : list A) :
  length (mapi f a) = length a.
Proof.
  unfold mapi. rewrite length_map, length_combine, length_seq.
  apply Nat.min_id.
Qed.

Lemma nth_mapi {A B : Type} (f : A -> nat -> B) (a : list A) (i : nat)
    (d : B) (d' : A) :
  (i < length a)%nat -> nth i (mapi f a) d = f (nth i a d') i.
Proof.
  intros Hi. unfold mapi.
  set (g := fun '(i, val) => f val i).
  rewrite (nth_indep _ d (g (0%nat, d'))).
  - rewrite (map_nth g).
    rewrite combine_nth by (rewrite length_seq; reflexivity).
    rewrite seq_nth by lia. reflexivity.
  - rewrite length_map, length_combine, length_seq, Nat.min_id. exact Hi.
Qed.

Lemma get_mapi (f : number -> nat -> number) (a : list number) (i : nat) :
  (i < length a)%nat -> JS.get (mapi f a) i = f (JS.get a i) i.
Proof. intros Hi. unfold JS.get. apply nth_mapi. exact Hi. Qed.

Lemma get_map (f : number -> number) (a : list number) (i : nat) :
  (i < length a)%nat -> JS.get (map f a) i = f (JS.get a i).
Proof.
  intros Hi. unfold JS.get.
  rewrite (nth_indep _ nan (f nan)) by (rewrite length_map; exact Hi).
  apply map_nth.
Qed.

(** Below the length, an array holds the entry that a read returns. *)
Lemma nth_error_get (a : list number) (i : nat) :
  (i < length a)%nat -> nth_error a i = Some (JS.get a i).
Proof. intros Hi. unfold JS.get. apply nth_error_nth'. exact Hi. Qed.

Lemma mapi_by_index (f : number -> nat -> number) (a : list number) :
  mapi f a = map (fun i => f (JS.get a i) i) (seq 0 (length a)).
Proof.
  apply nth_ext with (d := nan) (d' := f (JS.get a (length a)) (length a)).
  - rewrite length_mapi, length_map, length_seq. reflexivity.
  - intros i Hi. rewrite length_mapi in Hi.
    rewrite (nth_mapi f a i nan nan Hi).
    rewrite (map_nth (fun i => f (JS.get a i) i)).
    rewrite seq_nth by lia. reflexivity.
Qed.

End Sums.

(** * Specified properties of the sample and of the estimators *)

Section EstimatorClaims.

Context {M : MathLib}.

Local Open Scope float_scope.

Lemma correlatedLoop_lengths (rho : number) (todo : nat) :
  forall u v rng,
    length (fst (fst (correlatedLoop todo rho u v rng))) = (length u + todo)%nat
    /\ length (snd (fst (correlatedLoop todo rho u v rng))) = (length v + todo)%nat.
Proof.
  induction todo as [|todo IH]; intros u v rng; cbn [correlatedLoop].
  - cbn. lia.
  - destruct (correlatedPair rho rng) as [[valU valV] rng'].
    destruct (IH (u ++ [valU]) (v ++ [valV]) rng') as [H1 H2].
    rewrite H1, H2, !length_app. cbn [length]. lia.
Qed.

Lemma generateCorrelatedNormals_lengths (n : Z) (rho : number) (rng : SeededRNG) :
  length (fst (fst (generateCorrelatedNormals n rho rng))) = Z.to_nat n
  /\ length (snd (fst (generateCorrelatedNormals n rho rng))) = Z.to_nat n.
Proof.
  unfold generateCorrelatedNormals.
  destruct (correlatedLoop_lengths rho (Z.to_nat n) [] [] rng) as [H1 H2].
  cbn [length] in *. lia.
Qed.

Lemma generateSample_lengths (p : SimulationParams) (rng : SeededRNG) :
  let s := fst (generateSample p rng) in
  length (err_u s) = Z.to_nat (sampleSize p)
  /\ length (err_v s) = Z.to_nat (sampleSize p)
  /\ length (smp_z s) = Z.to_nat (sampleSize p)
  /\ length (smp_x s) = Z.to_nat (sampleSize p)
  /\ length (smp_y s) = Z.to_nat (sampleSize p).
Proof.
  cbv zeta. unfold generateSample.
  pose proof (generateCorrelatedNormals_lengths (sampleSize p) (endogeneity p) rng)
    as [Hu Hv].
  destruct (generateCorrelatedNormals (sampleSize p) (endogeneity p) rng)
    as [[u v] rng1].
  pose proof (generateCorrelatedNormals_lengths (sampleSize p) 0 rng1) as [Hz _].
  destruct (generateCorrelatedNormals (sampleSize p) 0 rng1) as [[z w] rng2].
  cbn [fst snd err_u err_v smp_z smp_x smp_y] in *.
  rewrite !length_mapi. auto.
Qed.

(** C3. On sequences of one length, [estimateIV] is exactly 0 as soon as
    the denominator [Σ (zᵢ − z̄)(xᵢ − x̄)] is below 1e-9 in magnitude -- a
    test in which [y] plays no part -- and is the quotient of
    [Σ (zᵢ − z̄)(yᵢ − ȳ)] by that denominator otherwise. *)
Theorem estimateIV_guarded_quotient (x y z : list number) :
  length y = length x ->
  length z = length x ->
  estimateIV x y z
  = if abs (crossSum z x) <? JS.c_1e_9 then 0
    else crossSum z y / crossSum z x.
Proof.
  intros Hy Hz. unfold estimateIV, crossSum.
  rewrite (fold_left_pair
             (fun num i => num + (JS.get z i - mean z) * (JS.get y i - mean y))
             (fun den i => den + (JS.get z i - mean z) * (JS.get x i - mean x))).
  rewrite (combine_by_index z x) by lia.
  rewrite (combine_by_index z y) by lia.
  rewrite !fold_left_map_list, Hz. reflexivity.
Qed.

(** C6. In every replication the sample is built as follows: [(u, v)] is
    the pair returned by a first call of the generator with the configured
    correlation, [z] is the first sequence returned by a second call, made
    with correlation 0 on the generator state the first call left (its
    second sequence is dropped).  Each of [u], [v], [z], [x] and [y] holds
    exactly [N] numbers, [N] being the sample size, and at every index [i]
    below [N] all five hold an entry, with [xᵢ = π·zᵢ + vᵢ] and
    [yᵢ = β·xᵢ + uᵢ]; the two estimates pushed are those of this sample. *)
Theorem replication_sample (p : SimulationParams) (a : Accum) (i : nat) :
  let N := Z.to_nat (sampleSize p) in
  let first :=
    generateCorrelatedNormals (sampleSize p) (endogeneity p) (acc_rng a) in
  let second := generateCorrelatedNormals (sampleSize p) 0 (snd first) in
  let u := fst (fst first) in
  let v := snd (fst first) in
  let z := fst (fst second) in
  let s := fst (generateSample p (acc_rng a)) in
  (i < N)%nat ->
  (length u = N /\ length v = N /\ length z = N
   /\ length (smp_x s) = N /\ length (smp_y s) = N)
  /\ (err_u s = u /\ err_v s = v /\ smp_z s = z)
  /\ (exists ui vi zi,
        nth_error u i = Some ui
        /\ nth_error v i = Some vi
        /\ nth_error z i = Some zi
        /\ nth_error (smp_x s) i = Some (ivStrength p * zi + vi)
        /\ nth_error (smp_y s) i
           = Some (betaTrue p * (ivStrength p * zi + vi) + ui))
  /\ JS.get (smp_x s) i = ivStrength p * JS.get z i + JS.get v i
  /\ JS.get (smp_y s) i = betaTrue p * JS.get (smp_x s) i + JS.get u i
  /\ acc_rng (replication p a) = snd second
  /\ acc_ols (replication p a)
     = acc_ols a ++ [estimateOLS (smp_x s) (smp_y s)]
  /\ acc_iv (replication p a)
     = acc_iv a ++ [estimateIV (smp_x s) (smp_y s) (smp_z s)].
Proof.
  cbv zeta. intros Hi. unfold replication.
  pose proof (generateSample_lengths p (acc_rng a)) as HL. cbv zeta in HL.
  destruct HL as (Lu & Lv & Lz & Lx & Ly).
  revert Lu Lv Lz Lx Ly. unfold generateSample.
  destruct (generateCorrelatedNormals (sampleSize p) (endogeneity p) (acc_rng a))
    as [[u v] rng1].
  cbn [fst snd].
  destruct (generateCorrelatedNormals (sampleSize p) 0 rng1) as [[z w] rng2].
  cbn [fst snd smp_x smp_y smp_z err_u err_v acc_rng acc_ols acc_iv].
  intros Lu Lv Lz Lx Ly.
  split; [repeat split; assumption|].
  split; [repeat split|].
  split.
  - exists (JS.get u i), (JS.get v i), (JS.get z i).
    split; [apply nth_error_get; lia|].
    split; [apply nth_error_get; lia|].
    split; [apply nth_error_get; lia|].
    split.
    + etransitivity;
        [apply nth_error_get; rewrite length_mapi; unfold number in *; lia|].
      f_equal. rewrite (get_mapi _ z) by lia. reflexivity.
    + etransitivity;
        [apply nth_error_get; rewrite !length_mapi; unfold number in *; lia|].
      f_equal.
      rewrite (get_mapi _ (mapi _ z)) by (rewrite length_mapi; lia).
      rewrite (get_mapi _ z) by lia. reflexivity.
  - repeat split.
    + rewrite (get_mapi _ z) by lia. reflexivity.
    + rewrite (get_mapi _ (mapi _ z)) by (rewrite length_mapi; lia).
      reflexivity.
Qed.

(** C7. The F statistic pushed by every replication is
    [R²·(n − 2) / (1 − R²)], with [π̂] the OLS slope of [x] on [z],
    [SSR = Σ (xᵢ − π̂·zᵢ)²], [SST = variance (x)·n] and [R² = 1 − SSR / SST];
    the quotient is taken as it stands, whatever [1 − R²] is. *)
Theorem replication_first_stage_F (p : SimulationParams) (a : Accum) :
  let s := fst (generateSample p (acc_rng a)) in
  let n := JS.ofZ (sampleSize p) in
  let piHat := estimateOLS (smp_z s) (smp_x s) in
  let SSR := residualSumOfSquares piHat (smp_x s) (smp_z s) in
  let SST := variance (smp_x s) None * n in
  let R2 := 1 - SSR / SST in
  acc_f (replication p a) = acc_f a ++ [R2 * (n - 2) / (1 - R2)].
Proof.
  cbv zeta. unfold replication.
  pose proof (generateSample_lengths p (acc_rng a)) as HL. cbv zeta in HL.
  destruct HL as (_ & _ & Lz & Lx & _).
  destruct (generateSample p (acc_rng a)) as [s rng'].
  cbn [fst acc_f] in *. do 2 f_equal. unfold firstStageF.
  set (piHat := estimateOLS (smp_z s) (smp_x s)).
  assert (E : fold_left (fun acc val => acc + val * val)
                (mapi (fun val i =>
                         val - JS.get (map (fun val0 => piHat * val0) (smp_z s)) i)
                   (smp_x s)) 0
              = residualSumOfSquares piHat (smp_x s) (smp_z s)).
  { unfold residualSumOfSquares.
    rewrite mapi_by_index, (combine_by_index (smp_x s) (smp_z s)) by lia.
    rewrite !fold_left_map_list.
    apply fold_left_ext_in. intros i acc Hin. apply in_seq in Hin.
    rewrite get_map by lia. reflexivity. }
  rewrite E. reflexivity.
Qed.

End EstimatorClaims.

(** * Facts on binary64 arithmetic

    Read off the specification of the primitive operations
    ([SpecFloat]): which numbers subtract to zero, what adding zero does,
    and that an integer converts to a finite number. *)

Section Rounding.

(** [n] steps of [shr_1] on a mantissa of more than [n] binary digits leave
    a positive mantissa with [n] digits less. *)
Lemma iter_pos_as_iter {A : Type} (f : A -> A) (p : positive) :
  forall x, iter_pos f p x = Nat.iter (Pos.to_nat p) f x.
Proof.
  induction p as [p IH|p IH|]; intros x; cbn [iter_pos].
  - rewrite !IH, Pos2Nat.inj_xI.
    replace (S (2 * Pos.to_nat p))%nat
      with (S (Pos.to_nat p + Pos.to_nat p))%nat by lia.
    rewrite Nat.iter_succ_r, Nat.iter_add. reflexivity.
  - rewrite !IH, Pos2Nat.inj_xO.
    replace (2 * Pos.to_nat p)%nat
      with (Pos.to_nat p + Pos.to_nat p)%nat by lia.
    rewrite Nat.iter_add. reflexivity.
  - reflexivity.
Qed.

Lemma shr_1_positive (mrs : shr_record) (q : positive) :
  shr_m mrs = Z.pos q ->
  (1 < Z.pos (digits2_pos q))%Z ->
  exists q', shr_m (shr_1 mrs) = Z.pos q'
             /\ Z.pos (digits2_pos q') = (Z.pos (digits2_pos q) - 1)%Z.
Proof.
  destruct mrs as [m r s]. cbn [shr_m]. intros -> Hd.
  destruct q as [q|q|]; cbn [shr_1 shr_m digits2_pos] in *.
  - exists q. split; [reflexivity|lia].
  - exists q. split; [reflexivity|lia].
  - lia.
Qed.

Lemma iter_shr_1_positive (k : nat) :
  forall (mrs : shr_record) (q : positive),
    shr_m mrs = Z.pos q ->
    (Z.of_nat k < Z.pos (digits2_pos q))%Z ->
    exists q', shr_m (Nat.iter k shr_1 mrs) = Z.pos q'
               /\ Z.pos (digits2_pos q')
                  = (Z.pos (digits2_pos q) - Z.of_nat k)%Z.
Proof.
  induction k as [|k IH]; intros mrs q Hm Hk.
  - exists q. cbn [Nat.iter]. split; [exact Hm|lia].
  - destruct (IH mrs q Hm) as (q1 & H1 & D1); [lia|].
    destruct (shr_1_positive (Nat.iter k shr_1 mrs) q1 H1) as (q2 & H2 & D2);
      [lia|].
    exists q2. cbn [Nat.iter]. split; [exact H2|lia].
Qed.

(** [shr] by less than the number of digits. *)
Lemma shr_positive (mrs : shr_record) (q : positive) (e n : Z) :
  shr_m mrs = Z.pos q ->
  (n < Z.pos (digits2_pos q))%Z ->
  exists q', shr_m (fst (shr mrs e n)) = Z.pos q'
             /\ Z.pos (digits2_pos q')
                = (Z.pos (digits2_pos q) - Z.max n 0)%Z
             /\ snd (shr mrs e n) = (e + Z.max n 0)%Z.
Proof.
  intros Hm Hn. destruct n as [|k|k]; cbn [shr fst snd].
  - exists q. repeat split; try assumption; lia.
  - rewrite iter_pos_as_iter.
    destruct (iter_shr_1_positive (Pos.to_nat k) mrs q Hm) as (q' & H1 & D1);
      [lia|].
    exists q'. repeat split; try assumption; lia.
  - exists q. repeat split; try assumption; lia.
Qed.

Lemma digits2_pos_succ (q : positive) :
  (Z.pos (digits2_pos (Pos.succ q)) <= Z.pos (digits2_pos q) + 1)%Z.
Proof.
  induction q as [q IH|q IH|]; cbn [Pos.succ digits2_pos]; lia.
Qed.

Lemma shr_m_of_loc (m : Z) (l : location) : shr_m (shr_record_of_loc m l) = m.
Proof. destruct l as [|[| |]]; reflexivity. Qed.

(** Rounding to nearest keeps a positive mantissa positive and adds at
    most one digit. *)
Lemma round_nearest_even_positive (q : positive) (l : location) :
  exists q', round_nearest_even (Z.pos q) l = Z.pos q'
             /\ (Z.pos (digits2_pos q') <= Z.pos (digits2_pos q) + 1)%Z.
Proof.
  pose proof (digits2_pos_succ q) as HS.
  assert (HP : (Z.pos q + 1 = Z.pos (Pos.succ q))%Z) by lia.
  destruct l as [|[| |]]; cbn [round_nearest_even].
  - exists q. split; [reflexivity|lia].
  - destruct (Z.even (Z.pos q)).
    + exists q. split; [reflexivity|lia].
    + exists (Pos.succ q). split; [exact HP|exact HS].
  - exists q. split; [reflexivity|lia].
  - exists (Pos.succ q). split; [exact HP|exact HS].
Qed.

(** A positive mantissa whose exponent is not below the least one, and
    whose magnitude is far from the overflow threshold, rounds to a finite
    number of the same sign. *)
Lemma binary_round_aux_finite (s : bool) (m : positive) (e : Z) (l : location) :
  (-1074 <= e)%Z ->
  (e <= 900)%Z ->
  (e + Z.pos (digits2_pos m) <= 1000)%Z ->
  exists m' e', binary_round_aux prec emax s (Z.pos m) e l = S754_finite s m' e'.
Proof.
  intros He1 He2 Hd. unfold binary_round_aux, shr_fexp.
  destruct (shr_positive (shr_record_of_loc (Z.pos m) l) m e
              (fexp prec emax (Zdigits2 (Z.pos m) + e) - e)
              (shr_m_of_loc _ _)) as (q1 & H1 & D1 & E1).
  { unfold fexp, emin, prec, emax. cbn [Zdigits2]. lia. }
  destruct (shr (shr_record_of_loc (Z.pos m) l) e
              (fexp prec emax (Zdigits2 (Z.pos m) + e) - e)) as [mrs1 e1].
  cbn [fst snd] in H1, E1. rewrite H1.
  destruct (round_nearest_even_positive q1 (loc_of_shr_record mrs1))
    as (q2 & H2 & D2).
  rewrite H2.
  assert (Hb : (-1074 <= e1)%Z).
  { revert E1. unfold fexp, emin, prec, emax. cbn [Zdigits2]. lia. }
  destruct (shr_positive (shr_record_of_loc (Z.pos q2) loc_Exact) q2 e1
              (fexp prec emax (Zdigits2 (Z.pos q2) + e1) - e1)
              (shr_m_of_loc _ _)) as (q3 & H3 & D3 & E3).
  { unfold fexp, emin, prec, emax. cbn [Zdigits2]. lia. }
  destruct (shr (shr_record_of_loc (Z.pos q2) loc_Exact) e1
              (fexp prec emax (Zdigits2 (Z.pos q2) + e1) - e1)) as [mrs3 e3].
  cbn [fst snd] in H3, E3. rewrite H3.
  assert (Hle : (e3 <=? emax - prec)%Z = true).
  { apply Z.leb_le. revert E1 E3 D1 D2.
    unfold fexp, emin, prec, emax. cbn [Zdigits2]. lia. }
  rewrite Hle. exists q3, e3. reflexivity.
Qed.

Lemma digits2_pos_iter_xO (p k : positive) :
  Z.pos (digits2_pos (Pos.iter xO p k)) = (Z.pos (digits2_pos p) + Z.pos k)%Z.
Proof.
  induction k as [|k IH] using Pos.peano_ind.
  - cbn. lia.
  - rewrite Pos.iter_succ. cbn [digits2_pos]. lia.
Qed.

Lemma binary_round_finite (s : bool) (m : positive) (e : Z) :
  (-1074 <= e)%Z ->
  (e <= 900)%Z ->
  (e + Z.pos (digits2_pos m) <= 1000)%Z ->
  exists m' e', binary_round prec emax s m e = S754_finite s m' e'.
Proof.
  intros He1 He2 Hd. unfold binary_round, shl_align.
  destruct (fexp prec emax (Z.pos (digits2_pos m) + e) - e)%Z as [|k|k] eqn:Ek;
    try (apply binary_round_aux_finite; assumption).
  apply binary_round_aux_finite.
  - unfold fexp, emin, prec, emax. lia.
  - revert Ek. unfold fexp, emin, prec, emax. lia.
  - rewrite digits2_pos_iter_xO. revert Ek. unfold fexp, emin, prec, emax. lia.
Qed.

Lemma digits2_pos_lower (p : positive) :
  (2 ^ (Z.pos (digits2_pos p) - 1) <= Z.pos p)%Z.
Proof.
  induction p as [p IH|p IH|]; cbn [digits2_pos].
  - replace (Z.pos (Pos.succ (digits2_pos p)) - 1)%Z
      with (Z.succ (Z.pos (digits2_pos p) - 1)) by lia.
    rewrite Z.pow_succ_r by lia. lia.
  - replace (Z.pos (Pos.succ (digits2_pos p)) - 1)%Z
      with (Z.succ (Z.pos (digits2_pos p) - 1)) by lia.
    rewrite Z.pow_succ_r by lia. lia.
  - cbn. lia.
Qed.

Lemma digits2_pos_63 (p : positive) :
  (Z.pos p <= JS.maxInt63)%Z -> (Z.pos (digits2_pos p) <= 63)%Z.
Proof.
  intros Hp. pose proof (digits2_pos_lower p) as HL.
  destruct (Z.le_gt_cases (Z.pos (digits2_pos p)) 63) as [H|H]; [exact H|].
  assert (2 ^ 63 <= 2 ^ (Z.pos (digits2_pos p) - 1))%Z
    by (apply Z.pow_le_mono_r; lia).
  unfold JS.maxInt63 in Hp. change (2 ^ 63)%Z with 9223372036854775808%Z in *.
  lia.
Qed.

(** A positive mantissa whose exponent is not below the least one rounds to
    a number of the same sign that is not zero. *)
Lemma binary_round_aux_nonzero (s : bool) (m : positive) (e : Z) (l : location) :
  (-1074 <= e)%Z ->
  (exists m' e', binary_round_aux prec emax s (Z.pos m) e l = S754_finite s m' e')
  \/ binary_round_aux prec emax s (Z.pos m) e l = S754_infinity s.
Proof.
  intros He1. unfold binary_round_aux, shr_fexp.
  destruct (shr_positive (shr_record_of_loc (Z.pos m) l) m e
              (fexp prec emax (Zdigits2 (Z.pos m) + e) - e)
              (shr_m_of_loc _ _)) as (q1 & H1 & D1 & E1).
  { unfold fexp, emin, prec, emax. cbn [Zdigits2]. lia. }
  destruct (shr (shr_record_of_loc (Z.pos m) l) e
              (fexp prec emax (Zdigits2 (Z.pos m) + e) - e)) as [mrs1 e1].
  cbn [fst snd] in H1, E1. rewrite H1.
  destruct (round_nearest_even_positive q1 (loc_of_shr_record mrs1))
    as (q2 & H2 & D2).
  rewrite H2.
  assert (Hb : (-1074 <= e1)%Z).
  { revert E1. unfold fexp, emin, prec, emax. cbn [Zdigits2]. lia. }
  destruct (shr_positive (shr_record_of_loc (Z.pos q2) loc_Exact) q2 e1
              (fexp prec emax (Zdigits2 (Z.pos q2) + e1) - e1)
              (shr_m_of_loc _ _)) as (q3 & H3 & D3 & E3).
  { unfold fexp, emin, prec, emax. cbn [Zdigits2]. lia. }
  destruct (shr (shr_record_of_loc (Z.pos q2) loc_Exact) e1
              (fexp prec emax (Zdigits2 (Z.pos q2) + e1) - e1)) as [mrs3 e3].
  cbn [fst snd] in H3, E3. rewrite H3.
  destruct (e3 <=? emax - prec)%Z; [left; exists q3, e3; reflexivity|right; reflexivity].
Qed.

Lemma binary_round_negative (m : positive) (e : Z) :
  (-1074 <= e)%Z ->
  SFltb (binary_round prec emax true m e) (S754_zero false) = true.
Proof.
  intros He. unfold binary_round, shl_align.
  assert (G : forall mz ez, (-1074 <= ez)%Z ->
            SFltb (binary_round_aux prec emax true (Z.pos mz) ez loc_Exact)
              (S754_zero false) = true).
  { intros mz ez Hz.
    destruct (binary_round_aux_nonzero true mz ez loc_Exact Hz)
      as [(m' & e' & ->)| ->]; reflexivity. }
  destruct (fexp prec emax (Z.pos (digits2_pos m) + e) - e)%Z as [|k|k] eqn:Ek;
    apply G; try exact He.
  unfold fexp, emin, prec, emax. lia.
Qed.

Lemma pos_iter_xO_value (m d : positive) :
  Z.pos (Pos.iter xO m d) = (Z.pos m * 2 ^ Z.pos d)%Z.
Proof.
  induction d as [|d IH] using Pos.peano_ind.
  - cbn. lia.
  - rewrite Pos.iter_succ, Pos2Z.inj_succ, Z.pow_succ_r by lia.
    rewrite Pos2Z.inj_xO, IH. ring.
Qed.

(** The mantissa aligned on a lower exponent. *)
Lemma shl_align_value (m : positive) (e ez : Z) :
  (ez <= e)%Z ->
  Z.pos (fst (shl_align m e ez)) = (Z.pos m * 2 ^ (e - ez))%Z.
Proof.
  intros H. unfold shl_align.
  destruct (ez - e)%Z as [|d|d] eqn:E; cbn [fst].
  - replace (e - ez)%Z with 0%Z by lia. cbn. lia.
  - lia.
  - rewrite pos_iter_xO_value. f_equal. f_equal. lia.
Qed.

Lemma digits2_pos_upper (p : positive) :
  (Z.pos p < 2 ^ Z.pos (digits2_pos p))%Z.
Proof.
  induction p as [p IH|p IH|]; cbn [digits2_pos].
  - rewrite Pos2Z.inj_succ, Z.pow_succ_r by lia. lia.
  - rewrite Pos2Z.inj_succ, Z.pow_succ_r by lia. lia.
  - cbn. lia.
Qed.

End Rounding.

Section NumberFacts.

Local Open Scope float_scope.

Lemma ofNonneg_positive (z : Z) :
  (0 < z)%Z -> exists m e, Prim2SF (JS.ofNonneg z) = S754_finite false m e.
Proof.
  intros Hz. unfold JS.ofNonneg.
  rewrite of_uint63_spec, Uint63.of_Z_spec.
  assert (Hb : (0 < Z.min z JS.maxInt63 <= JS.maxInt63)%Z)
    by (unfold JS.maxInt63; lia).
  rewrite Z.mod_small
    by (change Uint63Axioms.wB with 9223372036854775808%Z;
        unfold JS.maxInt63 in *; lia).
  destruct (Z.min z JS.maxInt63) as [|p|p]; try lia.
  cbn [binary_normalize].
  apply binary_round_finite; try lia.
  pose proof (digits2_pos_63 p (proj2 Hb)). lia.
Qed.

Lemma ofNat_zero : Prim2SF (JS.ofNat 0) = S754_zero false.
Proof. reflexivity. Qed.

Lemma ofNat_positive (n : nat) :
  (0 < n)%nat -> exists m e, Prim2SF (JS.ofNat n) = S754_finite false m e.
Proof.
  intros Hn. unfold JS.ofNat, JS.ofZ.
  destruct (Z.ltb_spec (Z.of_nat n) 0); [lia|].
  apply ofNonneg_positive. lia.
Qed.

Lemma ofNat_times_zero (n : nat) : JS.ofNat n * 0 = 0.
Proof.
  apply Prim2SF_inj. rewrite mul_spec.
  destruct n as [|n].
  - reflexivity.
  - destruct (ofNat_positive (S n)) as (m & e & H); [lia|].
    rewrite H. reflexivity.
Qed.

Lemma zero_over_ofNat (n : nat) : (0 < n)%nat -> 0 / JS.ofNat n = 0.
Proof.
  intros Hn. apply Prim2SF_inj. rewrite div_spec.
  destruct (ofNat_positive n Hn) as (m & e & H).
  rewrite H. reflexivity.
Qed.

Lemma sub_self (c : number) : JS.isFinite c = true -> c - c = 0.
Proof.
  unfold JS.isFinite. intros H. apply Prim2SF_inj. rewrite sub_spec.
  destruct (Prim2SF c) as [s|s| |s m e]; try discriminate.
  - destruct s; reflexivity.
  - unfold SF64sub, SFsub. cbv zeta. rewrite Z.sub_diag. reflexivity.
Qed.

Lemma sub_zero (c : number) : JS.isFinite c = true -> c - 0 = c.
Proof.
  unfold JS.isFinite. intros H. apply Prim2SF_inj. rewrite sub_spec.
  change (Prim2SF 0) with (S754_zero false).
  destruct (Prim2SF c) as [s|s| |s m e]; try discriminate.
  - destruct s; reflexivity.
  - reflexivity.
Qed.

(** Adding zero changes nothing but the sign of a negative zero. *)
Lemma add_zero_spec (c : number) :
  JS.isFinite c = true ->
  Prim2SF (c + 0)
  = match Prim2SF c with S754_zero _ => S754_zero false | x => x end.
Proof.
  unfold JS.isFinite. intros H. rewrite add_spec.
  change (Prim2SF 0) with (S754_zero false).
  destruct (Prim2SF c) as [s|s| |s m e]; try discriminate.
  - destruct s; reflexivity.
  - reflexivity.
Qed.

Lemma add_zero_sub (c : number) : JS.isFinite c = true -> (c + 0) - c = 0.
Proof.
  intros H. apply Prim2SF_inj. rewrite sub_spec, (add_zero_spec c H).
  unfold JS.isFinite in H.
  destruct (Prim2SF c) as [s|s| |s m e]; try discriminate.
  - destruct s; reflexivity.
  - unfold SF64sub, SFsub. cbv zeta. rewrite Z.sub_diag. reflexivity.
Qed.

Lemma SFcompare_refl (x : spec_float) :
  match x with S754_zero _ | S754_finite _ _ _ => true | _ => false end = true ->
  SFcompare x x = Some Eq.
Proof.
  destruct x as [s|s| |s m e]; try discriminate; intros _; cbn [SFcompare].
  - reflexivity.
  - rewrite Z.compare_refl, Pos.compare_cont_refl. destruct s; reflexivity.
Qed.

Lemma add_zero_compare (c : number) :
  JS.isFinite c = true ->
  SFcompare (Prim2SF (c + 0)) (Prim2SF c) = Some Eq
  /\ SFcompare (Prim2SF c) (Prim2SF (c + 0)) = Some Eq.
Proof.
  intros H. rewrite (add_zero_spec c H).
  pose proof (SFcompare_refl (Prim2SF c) H) as HR.
  unfold JS.isFinite in H.
  destruct (Prim2SF c) as [s|s| |s m e]; try discriminate; auto.
Qed.

Lemma add_zero_eqb (c : number) : JS.isFinite c = true -> (c + 0 =? c) = true.
Proof.
  intros H. rewrite eqb_spec. unfold SFeqb.
  rewrite (proj1 (add_zero_compare c H)). reflexivity.
Qed.

Lemma add_zero_not_above (c : number) :
  JS.isFinite c = true -> (c <? c + 0) = false.
Proof.
  intros H. rewrite ltb_spec. unfold SFltb.
  rewrite (proj2 (add_zero_compare c H)). reflexivity.
Qed.

Lemma ltb_irrefl (c : number) : JS.isFinite c = true -> (c <? c) = false.
Proof.
  intros H. rewrite ltb_spec. unfold SFltb.
  rewrite (SFcompare_refl (Prim2SF c) H). reflexivity.
Qed.

Lemma is_nan_finite (c : number) : JS.isFinite c = true -> is_nan c = false.
Proof.
  intros H. unfold is_nan. rewrite eqb_spec. unfold SFeqb.
  rewrite (SFcompare_refl (Prim2SF c) H). reflexivity.
Qed.

Lemma min2_self (c : number) : JS.isFinite c = true -> JS.min2 c c = c.
Proof.
  intros H. unfold JS.min2.
  rewrite (is_nan_finite c H), (ltb_irrefl c H). cbn [orb].
  destruct (get_sign c); reflexivity.
Qed.

Lemma max2_self (c : number) : JS.isFinite c = true -> JS.max2 c c = c.
Proof.
  intros H. unfold JS.max2.
  rewrite (is_nan_finite c H), (ltb_irrefl c H). cbn [orb].
  destruct (get_sign c); reflexivity.
Qed.

Lemma min2_infinity (c : number) :
  JS.isFinite c = true -> JS.min2 infinity c = c.
Proof.
  intros H. unfold JS.min2.
  rewrite (is_nan_finite c H). change (is_nan infinity) with false. cbn [orb].
  rewrite !ltb_spec. change (Prim2SF infinity) with (S754_infinity false).
  unfold JS.isFinite in H.
  destruct (Prim2SF c) as [s|s| |s m e]; try discriminate; reflexivity.
Qed.

Lemma max2_neg_infinity (c : number) :
  JS.isFinite c = true -> JS.max2 neg_infinity c = c.
Proof.
  intros H. unfold JS.max2.
  rewrite (is_nan_finite c H). change (is_nan neg_infinity) with false.
  cbn [orb].
  rewrite !ltb_spec. change (Prim2SF neg_infinity) with (S754_infinity true).
  unfold JS.isFinite in H.
  destruct (Prim2SF c) as [s|s| |s m e]; try discriminate; reflexivity.
Qed.

(** What the validity of a finite binary64 number says of its mantissa and
    exponent. *)
Lemma finite_canonical (x : number) (s : bool) (m : positive) (e : Z) :
  Prim2SF x = S754_finite s m e ->
  (-1074 <= e)%Z
  /\ (Z.pos (digits2_pos m) <= 53)%Z
  /\ (-1074 < e -> Z.pos (digits2_pos m) = 53)%Z.
Proof.
  intros H. pose proof (Prim2SF_valid x) as V. rewrite H in V.
  unfold SpecFloat.valid_binary, bounded, canonical_mantissa in V.
  apply andb_prop in V. destruct V as [V _]. apply Z.eqb_eq in V.
  revert V. unfold fexp, emin, prec, emax. lia.
Qed.

(** Of two valid positive magnitudes, the one with the lower exponent is
    the smaller. *)
Lemma aligned_lt (x1 x2 : number) (s1 s2 : bool) (m1 m2 : positive)
    (e1 e2 : Z) :
  Prim2SF x1 = S754_finite s1 m1 e1 ->
  Prim2SF x2 = S754_finite s2 m2 e2 ->
  (e1 < e2)%Z ->
  (Z.pos m1 * 2 ^ (e1 - e1) < Z.pos m2 * 2 ^ (e2 - e1))%Z.
Proof.
  intros H1 H2 He.
  destruct (finite_canonical x1 s1 m1 e1 H1) as (L1 & D1 & _).
  destruct (finite_canonical x2 s2 m2 e2 H2) as (L2 & _ & N2).
  specialize (N2 ltac:(lia)).
  pose proof (digits2_pos_upper m1) as U1.
  pose proof (digits2_pos_lower m2) as W2. rewrite N2 in W2.
  assert (P1 : (2 ^ Z.pos (digits2_pos m1) <= 2 ^ 53)%Z)
    by (apply Z.pow_le_mono_r; lia).
  assert (P2 : (2 ^ 1 <= 2 ^ (e2 - e1))%Z) by (apply Z.pow_le_mono_r; lia).
  rewrite Z.sub_diag. change (2 ^ 0)%Z with 1%Z.
  change (2 ^ (53 - 1))%Z with 4503599627370496%Z in W2.
  change (2 ^ 53)%Z with 9007199254740992%Z in P1.
  change (2 ^ 1)%Z with 2%Z in P2.
  nia.
Qed.

(** The comparator agrees with the order: below means a negative
    difference. *)
Lemma lt_sub_negative (a b : number) :
  (b <? a) = true -> (b - a <? 0) = true.
Proof.
  rewrite !ltb_spec, sub_spec. change (Prim2SF 0) with (S754_zero false).
  destruct (Prim2SF b) as [sb|sb| |sb mb eb] eqn:Eb;
    destruct (Prim2SF a) as [sa|sa| |sa ma ea] eqn:Ea;
    try (destruct sa; destruct sb; cbn; congruence);
    try (destruct sa; cbn; congruence);
    try (destruct sb; cbn; congruence);
    try (cbn; congruence).
  destruct (finite_canonical b sb mb eb Eb) as (Lb & _ & _).
  destruct (finite_canonical a sa ma ea Ea) as (La & _ & _).
  unfold SFltb at 1. cbn [SFcompare]. intros Hlt.
  unfold SF64sub, SFsub. cbv zeta.
  rewrite (shl_align_value mb eb (Z.min eb ea)) by lia.
  rewrite (shl_align_value ma ea (Z.min eb ea)) by lia.
  assert (Hneg : (cond_Zopp sb (Z.pos mb * 2 ^ (eb - Z.min eb ea))
                  - cond_Zopp sa (Z.pos ma * 2 ^ (ea - Z.min eb ea)) < 0)%Z).
  { assert (Pb : (0 < Z.pos mb * 2 ^ (eb - Z.min eb ea))%Z)
      by (apply Z.mul_pos_pos; [lia|apply Z.pow_pos_nonneg; lia]).
    assert (Pa : (0 < Z.pos ma * 2 ^ (ea - Z.min eb ea))%Z)
      by (apply Z.mul_pos_pos; [lia|apply Z.pow_pos_nonneg; lia]).
    destruct sb, sa; cbn [cond_Zopp]; try lia; try discriminate.
    - (* both negative *)
      destruct (Z.compare_spec eb ea) as [E|E|E]; try discriminate.
      + subst ea. rewrite Z.min_id, Z.sub_diag in *.
        change (Pos.compare_cont Eq mb ma) with (mb ?= ma)%positive in Hlt.
        destruct (Pos.compare_spec mb ma); try discriminate. lia.
      + pose proof (aligned_lt a b _ _ _ _ _ _ Ea Eb E) as HA.
        rewrite Z.min_r by lia. lia.
    - (* both positive *)
      destruct (Z.compare_spec eb ea) as [E|E|E]; try discriminate.
      + subst ea. rewrite Z.min_id, Z.sub_diag in *.
        change (Pos.compare_cont Eq mb ma) with (mb ?= ma)%positive in Hlt.
        destruct (Pos.compare_spec mb ma); try discriminate. lia.
      + pose proof (aligned_lt b a _ _ _ _ _ _ Eb Ea E) as HA.
        rewrite Z.min_l by lia. lia. }
  destruct (cond_Zopp sb (Z.pos mb * 2 ^ (eb - Z.min eb ea))
            - cond_Zopp sa (Z.pos ma * 2 ^ (ea - Z.min eb ea)))%Z
    as [|p|p]; try lia.
  cbn [binary_normalize]. apply binary_round_negative. lia.
Qed.

Lemma SFcompare_antisym (x y : spec_float) :
  SFcompare y x = option_map CompOpp (SFcompare x y).
Proof.
  destruct x as [sx|sx| |sx mx ex]; destruct y as [sy|sy| |sy my ey];
    cbn [SFcompare option_map];
    try (destruct sx; destruct sy; reflexivity);
    try (destruct sx; reflexivity);
    try (destruct sy; reflexivity);
    try reflexivity.
  rewrite (Z.compare_antisym ex ey).
  change (Pos.compare_cont Eq my mx) with (my ?= mx)%positive.
  change (Pos.compare_cont Eq mx my) with (mx ?= my)%positive.
  rewrite (Pos.compare_antisym mx my).
  destruct sx, sy; destruct (ex ?= ey)%Z; cbn [CompOpp];
    try reflexivity; destruct (mx ?= my)%positive; reflexivity.
Qed.

(** Two numbers that are not NaN are ordered one way or the other. *)
Lemma not_leb_gt (a b : number) :
  is_nan a = false -> is_nan b = false ->
  (a <=? b) = false -> (b <? a) = true.
Proof.
  unfold is_nan. rewrite !eqb_spec, leb_spec, ltb_spec.
  unfold SFeqb, SFleb, SFltb. rewrite (SFcompare_antisym (Prim2SF a) (Prim2SF b)).
  intros Ha Hb.
  assert (E : exists c, SFcompare (Prim2SF a) (Prim2SF b) = Some c).
  { destruct (Prim2SF a) as [sa|sa| |sa ma ea]; try discriminate Ha;
      destruct (Prim2SF b) as [sb|sb| |sb mb eb]; try discriminate Hb;
      cbn [SFcompare]; eexists; reflexivity. }
  destruct E as [c ->]. cbn [option_map].
  destruct c; cbn [CompOpp]; intros H; try discriminate H; reflexivity.
Qed.

End NumberFacts.

(** * Facts on the histogram *)

Section HistogramFacts.

Local Open Scope float_scope.

Lemma insertNumber_perm (x : number) (l : list number) :
  Permutation (x :: l) (insertNumber x l).
Proof.
  induction l as [|h t IH]; cbn [insertNumber].
  - apply Permutation_refl.
  - destruct (x - h <? 0).
    + apply Permutation_refl.
    + apply perm_trans with (h :: x :: t); [apply perm_swap|].
      apply perm_skip. exact IH.
Qed.

Lemma sortNumbers_perm (l : list number) : Permutation l (sortNumbers l).
Proof.
  unfold sortNumbers.
  assert (G : forall acc,
             Permutation (acc ++ l)
               (fold_left (fun acc x => insertNumber x acc) l acc)).
  { induction l as [|x l IH]; intros acc; cbn [fold_left].
    - rewrite app_nil_r. apply Permutation_refl.
    - eapply perm_trans; [|apply IH].
      apply perm_trans with (x :: acc ++ l).
      + apply Permutation_sym, Permutation_middle.
      + change (x :: acc ++ l) with ((x :: acc) ++ l).
        apply Permutation_app_tail, insertNumber_perm. }
  exact (G []).
Qed.

(** A positive integer rounds to nothing below zero. *)
Lemma binary_round_not_negative (m : positive) (e : Z) :
  SFltb (binary_round prec emax false m e) (S754_zero false) = false.
Proof.
  unfold binary_round.
  destruct (shl_align m e (fexp prec emax (Z.pos (digits2_pos m) + e)))
    as [mz ez].
  unfold binary_round_aux.
  destruct (shr_fexp prec emax (Z.pos mz) ez loc_Exact) as [mrs1 e1].
  destruct (shr_fexp prec emax
              (round_nearest_even (shr_m mrs1) (loc_of_shr_record mrs1))
              e1 loc_Exact) as [mrs2 e2].
  destruct (shr_m mrs2); [reflexivity| |reflexivity].
  destruct (e2 <=? emax - prec)%Z; reflexivity.
Qed.

(** The comparator [(a, b) => a - b] never puts each of two numbers below
    the other. *)
Lemma comparator_antisym (a b : number) :
  (a - b <? 0) = true -> (b - a <? 0) = false.
Proof.
  rewrite !ltb_spec, !sub_spec. change (Prim2SF 0) with (S754_zero false).
  destruct (Prim2SF a) as [sa|sa| |sa ma ea];
    destruct (Prim2SF b) as [sb|sb| |sb mb eb];
    try (destruct sa; destruct sb; cbn; congruence);
    try (destruct sa; cbn; congruence);
    try (destruct sb; cbn; congruence);
    try (cbn; congruence).
  unfold SF64sub, SFsub. cbv zeta. rewrite (Z.min_comm eb ea).
  set (ez := Z.min ea eb).
  set (A := cond_Zopp sa (Z.pos (fst (shl_align ma ea ez)))).
  set (B := cond_Zopp sb (Z.pos (fst (shl_align mb eb ez)))).
  destruct (A - B)%Z as [|p|p] eqn:E; cbn [binary_normalize].
  - discriminate.
  - rewrite binary_round_not_negative. discriminate.
  - intros _. replace (B - A)%Z with (Z.pos p) by lia.
    cbn [binary_normalize]. apply binary_round_not_negative.
Qed.

Lemma insertNumber_HdRel (h x : number) (t : list number) :
  HdRel notBefore h t -> notBefore h x -> HdRel notBefore h (insertNumber x t).
Proof.
  intros Ht Hx. destruct t as [|t0 t]; cbn [insertNumber].
  - constructor. exact Hx.
  - destruct (x - t0 <? 0); constructor; [exact Hx|].
    inversion Ht; assumption.
Qed.

Lemma insertNumber_sorted (x : number) (l : list number) :
  Sorted notBefore l -> Sorted notBefore (insertNumber x l).
Proof.
  induction l as [|h t IH]; intros HS; cbn [insertNumber].
  - repeat constructor.
  - destruct (x - h <? 0) eqn:E.
    + constructor; [exact HS|]. constructor. apply comparator_antisym, E.
    + inversion HS as [|? ? HS' HH]; subst.
      constructor; [apply IH, HS'|].
      apply insertNumber_HdRel; [exact HH|exact E].
Qed.

Lemma sortNumbers_sorted (l : list number) : Sorted notBefore (sortNumbers l).
Proof.
  unfold sortNumbers.
  assert (G : forall acc,
             Sorted notBefore acc ->
             Sorted notBefore (fold_left (fun acc x => insertNumber x acc) l acc)).
  { induction l as [|x l IH]; intros acc HS; cbn [fold_left]; [exact HS|].
    apply IH, insertNumber_sorted, HS. }
  apply G. constructor.
Qed.

Lemma Sorted_among {A : Type} (P : A -> Prop) (R R' : A -> A -> Prop)
    (l : list A) :
  (forall a b, P a -> P b -> R a b -> R' a b) ->
  Forall P l -> Sorted R l -> Sorted R' l.
Proof.
  intros HR. induction l as [|a l IH]; intros HF HS; [constructor|].
  inversion HF as [|? ? Pa HF']; subst.
  inversion HS as [|? ? HS' HH]; subst.
  constructor; [apply IH; assumption|].
  destruct l as [|b l]; constructor.
  inversion HH; subst. inversion HF'; subst. apply HR; assumption.
Qed.

Lemma sortNumbers_ascending (l : list number) :
  Forall (fun v => is_nan v = false) l ->
  Sorted ascending (sortNumbers l).
Proof.
  intros HF.
  apply (Sorted_among (fun v => is_nan v = false) notBefore).
  - intros a b Ha Hb HN. unfold ascending, notBefore in *.
    destruct (a <=? b) eqn:E; [reflexivity|].
    rewrite (lt_sub_negative a b (not_leb_gt a b Ha Hb E)) in HN.
    discriminate.
  - rewrite Forall_forall in *. intros v Hv. apply HF.
    apply (Permutation_in _ (Permutation_sym (sortNumbers_perm l)) Hv).
  - apply sortNumbers_sorted.
Qed.

Lemma checkedFrom_spec (ok : Z -> bool) (count : nat) :
  forall from,
    checkedFrom ok from count = true ->
    forall k, (from <= k < from + Z.of_nat count)%Z -> ok k = true.
Proof.
  induction count as [|count IH]; intros from H k Hk; [lia|].
  cbn [checkedFrom] in H. apply andb_prop in H. destruct H as [H0 H1].
  destruct (Z.eq_dec k from) as [->|Hne]; [exact H0|].
  apply (IH (from + 1)%Z H1). lia.
Qed.

Lemma checkedLengths_percentiles :
  checkedFrom percentileIndicesExact 1 (Z.to_nat checkedLengths) = true.
Proof. vm_cast_no_check (eq_refl true). Qed.

Lemma checkedLengths_increments :
  checkedFrom incrementExact 0 (Z.to_nat checkedLengths) = true.
Proof. vm_cast_no_check (eq_refl true). Qed.

(** Up to [checkedLengths], the counter of the loop over the bins, held as
    a natural number, is the number the source increments. *)
Lemma counter_increment (i : nat) :
  (Z.of_nat i < checkedLengths)%Z -> JS.ofNat i + 1 = JS.ofNat (S i).
Proof.
  intros Hi.
  pose proof (checkedFrom_spec incrementExact (Z.to_nat checkedLengths) 0
                checkedLengths_increments (Z.of_nat i)) as HK.
  rewrite Z2Nat.id in HK by (unfold checkedLengths; lia).
  specialize (HK ltac:(lia)). unfold incrementExact in HK.
  apply FloatAxioms.Leibniz.eqb_spec in HK.
  unfold JS.ofNat. rewrite Nat2Z.inj_succ. exact HK.
Qed.

Lemma percentile_indices (len : nat) :
  (1 <= Z.of_nat len <= checkedLengths)%Z ->
  JS.floorIndex (JS.ofNat len * JS.c_0_02) = Some (len / 50)%nat
  /\ JS.floorIndex (JS.ofNat len * JS.c_0_98) = Some (49 * len / 50)%nat.
Proof.
  intros Hlen.
  pose proof (checkedFrom_spec percentileIndicesExact (Z.to_nat checkedLengths)
                1 checkedLengths_percentiles (Z.of_nat len)) as HK.
  rewrite Z2Nat.id in HK by (unfold checkedLengths; lia).
  specialize (HK ltac:(lia)).
  unfold percentileIndicesExact in HK. unfold JS.floorIndex, JS.ofNat.
  destruct (JS.floorZ (JS.ofZ (Z.of_nat len) * JS.c_0_02)) as [lo|];
    [|discriminate].
  destruct (JS.floorZ (JS.ofZ (Z.of_nat len) * JS.c_0_98)) as [hi|];
    [|discriminate].
  apply andb_prop in HK. destruct HK as [H1 H2].
  apply Z.eqb_eq in H1, H2. cbn [option_map]. rewrite H1, H2.
  split; f_equal.
  - rewrite <- (Nat2Z.id (len / 50)), Nat2Z.inj_div. reflexivity.
  - rewrite <- (Nat2Z.id (49 * len / 50)), Nat2Z.inj_div, Nat2Z.inj_mul.
    reflexivity.
Qed.

End HistogramFacts.

(** * Specified properties of the histogram *)

Section HistogramClaims.

Local Open Scope float_scope.

Lemma nth_error_map_seq {A : Type} (f : nat -> A) (n i : nat) :
  nth_error (map f (seq 0 n)) i = if (i <? n)%nat then Some (f i) else None.
Proof.
  destruct (Nat.ltb_spec i n) as [H|H].
  - rewrite (nth_error_nth' _ (f 0%nat))
      by (rewrite length_map, length_seq; exact H).
    rewrite (map_nth f), seq_nth by exact H. reflexivity.
  - apply nth_error_None. rewrite length_map, length_seq. exact H.
Qed.

Lemma nonempty_length {A : Type} (l : list A) :
  l <> [] -> (length l =? 0)%nat = false.
Proof. destruct l; [congruence|reflexivity]. Qed.

(** C8 (amended). On two empty sequences the result is empty.  Otherwise
    it has exactly as many bins as requested, laid end to end from a common
    start in multiples of a common step: bin [i] runs from
    [start + i * step] to [start + (i + 1) * step], so each bin ends where
    the next begins.  (These bounds are rounded sums; the differences
    [rangeEnd - rangeStart] are not all equal in general.) *)
Theorem histogram_bins_end_to_end (ols iv : list number) (bins : nat) :
  ols ++ iv <> [] ->
  let h := createHistogramData ols iv bins in
  createHistogramData [] [] bins = []
  /\ length h = bins
  /\ (exists start step,
        forall i, (i < bins)%nat ->
          exists b, nth_error h i = Some b
                    /\ rangeStart b = start + JS.ofNat i * step
                    /\ rangeEnd b = start + JS.ofNat (S i) * step)
  /\ (forall i b b',
        nth_error h i = Some b -> nth_error h (S i) = Some b' ->
        rangeEnd b = rangeStart b').
Proof.
  intros Hne. cbv zeta. unfold createHistogramData.
  rewrite (nonempty_length _ Hne).
  destruct (histogramRange (ols ++ iv) bins) as [start step].
  split; [reflexivity|]. split; [rewrite length_map, length_seq; reflexivity|].
  split.
  - exists start, step. intros i Hi. rewrite nth_error_map_seq.
    apply Nat.ltb_lt in Hi. rewrite Hi.
    eexists. split; [reflexivity|]. split; reflexivity.
  - intros i b b'. rewrite !nth_error_map_seq.
    destruct (i <? bins)%nat; [|discriminate].
    destruct (S i <? bins)%nat; [|discriminate].
    intros [= <-] [= <-]. reflexivity.
Qed.

(** For every merged length up to [checkedLengths] the two percentile
    positions hold an element: the fallbacks of the source are not taken. *)
Lemma percentiles_in_range (ols iv : list number) :
  let sorted := sortNumbers (ols ++ iv) in
  let len := length (ols ++ iv) in
  (1 <= Z.of_nat len <= checkedLengths)%Z ->
  JS.floorIndex (JS.ofNat len * JS.c_0_02) = Some (len / 50)%nat
  /\ JS.floorIndex (JS.ofNat len * JS.c_0_98) = Some (49 * len / 50)%nat
  /\ exists lo hi,
       nth_error sorted (len / 50) = Some lo
       /\ nth_error sorted (49 * len / 50) = Some hi.
Proof.
  cbv zeta. intros Hlen.
  pose proof (Permutation_length (sortNumbers_perm (ols ++ iv))) as HL.
  destruct (percentile_indices (length (ols ++ iv)) Hlen) as [I1 I2].
  split; [exact I1|]. split; [exact I2|].
  assert (B1 : (length (ols ++ iv) / 50 < length (sortNumbers (ols ++ iv)))%nat).
  { rewrite <- HL. apply Nat.Div0.div_lt_upper_bound. lia. }
  assert (B2 : (49 * length (ols ++ iv) / 50
                < length (sortNumbers (ols ++ iv)))%nat).
  { rewrite <- HL. apply Nat.Div0.div_lt_upper_bound. lia. }
  destruct (nth_error (sortNumbers (ols ++ iv)) (length (ols ++ iv) / 50))
    as [lo|] eqn:E1; [|apply nth_error_None in E1; lia].
  destruct (nth_error (sortNumbers (ols ++ iv)) (49 * length (ols ++ iv) / 50))
    as [hi|] eqn:E2; [|apply nth_error_None in E2; lia].
  exists lo, hi. split; reflexivity.
Qed.

(** C9. For estimates none of which is NaN, the merged sequence is sorted
    in ascending order (a permutation of it in which every element is at
    most its successor).  With [lo] and [hi] its elements at the positions
    obtained by flooring [len * 0.02] and [len * 0.98], the range of the
    histogram starts at [lo] less a tenth of [hi - lo], ends at [hi] plus a
    tenth of [hi - lo], and is divided in [bins] equal steps: bin [i] goes
    from [start + i * step] to [start + (i + 1) * step], its midpoint is
    the half of their sum, and its two frequencies count the estimates in
    that interval.  For every merged length up to [checkedLengths] those
    positions are [len / 50] and [49 * len / 50]. *)
Theorem histogram_range (ols iv : list number) (bins k1 k2 : nat)
    (lo hi : number) :
  let sorted := sortNumbers (ols ++ iv) in
  let len := length (ols ++ iv) in
  Forall (fun v => is_nan v = false) (ols ++ iv) ->
  JS.floorIndex (JS.ofNat len * JS.c_0_02) = Some k1 ->
  JS.floorIndex (JS.ofNat len * JS.c_0_98) = Some k2 ->
  nth_error sorted k1 = Some lo ->
  nth_error sorted k2 = Some hi ->
  Permutation (ols ++ iv) sorted
  /\ Sorted ascending sorted
  /\ (let start := lo - (hi - lo) * JS.c_0_1 in
      let end_ := hi + (hi - lo) * JS.c_0_1 in
      let step := (end_ - start) / JS.ofNat bins in
      createHistogramData ols iv bins
      = map (fun i =>
               let from := start + JS.ofNat i * step in
               let to := start + JS.ofNat (S i) * step in
               let among := fun l : list number =>
                 if (length l =? 0)%nat then 0
                 else JS.ofNat
                        (length (filter (fun v => (from <=? v) && (v <? to)) l))
                      / JS.ofNat (length l) in
               {| rangeStart := from;
                  rangeEnd := to;
                  olsFrequency := among ols;
                  ivFrequency := among iv;
                  midpoint := (from + to) / 2 |})
          (seq 0 bins))
  /\ ((1 <= Z.of_nat len <= checkedLengths)%Z ->
      k1 = (len / 50)%nat /\ k2 = (49 * len / 50)%nat).
Proof.
  cbv zeta. intros HF I1 I2 E1 E2.
  pose proof (sortNumbers_perm (ols ++ iv)) as HP.
  pose proof (Permutation_length HP) as HL.
  split; [exact HP|]. split; [apply sortNumbers_ascending; exact HF|]. split.
  - unfold createHistogramData.
    rewrite nonempty_length.
    + unfold histogramRange, percentileOr.
      rewrite <- HL, I1, I2, E1, E2. reflexivity.
    + intros Hnil. rewrite Hnil in E1. destruct k1; discriminate.
  - intros Hlen.
    destruct (percentile_indices (length (ols ++ iv)) Hlen) as [J1 J2].
    rewrite I1 in J1. rewrite I2 in J2.
    injection J1 as J1. injection J2 as J2. split; assumption.
Qed.

Lemma percentileOr_constant (sorted : list number) (q fallback c : number) :
  Forall (eq c) sorted -> fallback = c -> percentileOr sorted q fallback = c.
Proof.
  intros HF ->. unfold percentileOr.
  destruct (JS.floorIndex (JS.ofNat (length sorted) * q)) as [k|]; [|reflexivity].
  destruct (nth_error sorted k) as [v|] eqn:E; [|reflexivity].
  apply nth_error_In in E. rewrite Forall_forall in HF. symmetry. auto.
Qed.

Lemma fold_left_constant (f : number -> number -> number) (c : number)
    (l : list number) :
  f c c = c -> Forall (eq c) l -> fold_left f l c = c.
Proof.
  intros Hf. induction l as [|x l IH]; intros HF; cbn [fold_left]; [reflexivity|].
  inversion HF as [|? ? Hx HF']; subst. rewrite Hf. apply IH, HF'.
Qed.

Lemma filter_none (f : number -> bool) (c : number) (l : list number) :
  f c = false -> Forall (eq c) l -> filter f l = [].
Proof.
  intros Hf. induction l as [|x l IH]; intros HF; cbn [filter]; [reflexivity|].
  inversion HF as [|? ? Hx HF']; subst. rewrite Hf. apply IH, HF'.
Qed.

(** The range of a merged sequence whose elements are all one finite
    number: it starts there and has step zero. *)
Lemma histogramRange_constant (allValues : list number) (bins : nat)
    (c : number) :
  allValues <> [] -> Forall (eq c) allValues -> JS.isFinite c = true ->
  histogramRange allValues bins = (c, 0 / JS.ofNat bins).
Proof.
  intros Hne HF Hc. unfold histogramRange.
  pose proof (sortNumbers_perm allValues) as HP.
  assert (HS : Forall (eq c) (sortNumbers allValues))
    by (rewrite Forall_forall in *; intros v Hv; apply HF;
        apply (Permutation_in _ (Permutation_sym HP) Hv)).
  assert (HN : exists rest, sortNumbers allValues = c :: rest).
  { destruct (sortNumbers allValues) as [|v rest] eqn:E.
    - apply Permutation_length in HP.
      destruct allValues; [congruence|discriminate].
    - exists rest. inversion HS; subst. reflexivity. }
  destruct HN as [rest HN].
  assert (Hmin : JS.Math_min (sortNumbers allValues) = c).
  { rewrite HN in *. unfold JS.Math_min. cbn [fold_left].
    rewrite min2_infinity by exact Hc.
    apply fold_left_constant; [apply min2_self, Hc|].
    inversion HS; assumption. }
  assert (Hmax : JS.Math_max (sortNumbers allValues) = c).
  { rewrite HN in *. unfold JS.Math_max. cbn [fold_left].
    rewrite max2_neg_infinity by exact Hc.
    apply fold_left_constant; [apply max2_self, Hc|].
    inversion HS; assumption. }
  rewrite (percentileOr_constant _ JS.c_0_02 _ c HS Hmin).
  rewrite (percentileOr_constant _ JS.c_0_98 _ c HS Hmax).
  rewrite (sub_self c Hc). change (0 * JS.c_0_1) with 0.
  rewrite (sub_zero c Hc), (add_zero_sub c Hc). reflexivity.
Qed.

(** C10 (amended). When every element of the merged sequence is one and
    the same finite number [c], the result still has the requested number
    of bins, every bin starts and ends at a number equal to [c] (zero
    width), and every frequency is exactly 0: nothing is counted. *)
Theorem histogram_of_constant_estimates (ols iv : list number) (bins : nat)
    (c : number) :
  ols ++ iv <> [] ->
  Forall (eq c) (ols ++ iv) ->
  JS.isFinite c = true ->
  let h := createHistogramData ols iv bins in
  length h = bins
  /\ Forall (fun b => (rangeStart b =? c) = true
                      /\ (rangeEnd b =? c) = true
                      /\ olsFrequency b = 0
                      /\ ivFrequency b = 0) h.
Proof.
  intros Hne HF Hc. cbv zeta. unfold createHistogramData.
  rewrite (nonempty_length _ Hne).
  rewrite (histogramRange_constant (ols ++ iv) bins c Hne HF Hc).
  split; [rewrite length_map, length_seq; reflexivity|].
  apply Forall_forall. intros b Hb. apply in_map_iff in Hb.
  destruct Hb as (i & <- & Hi). apply in_seq in Hi.
  rewrite (zero_over_ofNat bins) by lia.
  apply Forall_app in HF. destruct HF as [HFo HFi].
  unfold histogramBin. cbn [rangeStart rangeEnd olsFrequency ivFrequency].
  rewrite !ofNat_times_zero.
  assert (Hout : ((c + 0 <=? c) && (c <? c + 0)) = false)
    by (rewrite (add_zero_not_above c Hc); apply andb_false_r).
  rewrite (filter_none _ c ols Hout HFo), (filter_none _ c iv Hout HFi).
  cbn [length]. change (JS.ofNat 0) with 0.
  repeat split; try apply (add_zero_eqb c Hc).
  - destruct ols as [|x ols']; [reflexivity|].
    cbn [length Nat.eqb]. apply zero_over_ofNat. lia.
  - destruct iv as [|x iv']; [reflexivity|].
    cbn [length Nat.eqb]. apply zero_over_ofNat. lia.
Qed.

End HistogramClaims.

(** * Concrete runs *)

Local Open Scope float_scope.

Lemma run_deterministic_witness :
  exists res1 res2,
    runMonteCarloAsync (M := RefMath.lib) quietEnv (demoParams 2 11)
    = Resolved res1
    /\ runMonteCarloAsync (M := RefMath.lib) (abortDuring 10) (demoParams 2 11)
       = Resolved res2
    /\ res1 = res2.
Proof.
  eexists. eexists.
  split; [vm_compute; reflexivity|].
  split; [vm_compute; reflexivity|].
  apply (@run_deterministic RefMath.lib (demoParams 2 11)
           quietEnv (abortDuring 10)); vm_compute; reflexivity.
Defined.

(** C2, as stated, fails: each of the three invalid configurations is
    accepted, its replications are run, and NaN comes out. *)
Lemma invalid_configuration_not_rejected :
  invalidConfiguration tooSmallSample = true
  /\ runMonteCarloAsync (M := RefMath.lib) quietEnv tooSmallSample
     = Resolved {| olsEstimates := [nan; nan]; ivEstimates := [0; 0];
                   fStats := [nan; nan]; olsBias := nan; ivBias := -1;
                   olsVariance := nan; ivVariance := 0 |}
  /\ invalidConfiguration noReplication = true
  /\ runMonteCarloAsync (M := RefMath.lib) quietEnv noReplication
     = Resolved {| olsEstimates := []; ivEstimates := []; fStats := [];
                   olsBias := nan; ivBias := nan;
                   olsVariance := nan; ivVariance := nan |}
  /\ invalidConfiguration correlationOutOfRange = true
  /\ (exists res,
        runMonteCarloAsync (M := RefMath.lib) quietEnv correlationOutOfRange
        = Resolved res
        /\ olsEstimates res = [nan; nan] /\ ivEstimates res = [nan; nan]).
Proof.
  repeat split; try (vm_compute; reflexivity).
  eexists. split; [vm_compute; reflexivity|].
  split; reflexivity.
Qed.

Lemma run_accepts_every_configuration_witness :
  (exists res,
      runMonteCarloAsync (M := RefMath.lib) quietEnv tooSmallSample = Resolved res
      /\ length (olsEstimates res) = 2%nat
      /\ length (ivEstimates res) = 2%nat
      /\ length (fStats res) = 2%nat)
  /\ (forall env' message,
         runMonteCarloAsync (M := RefMath.lib) env' tooSmallSample
         = Rejected message ->
         message = cancelledMessage).
Proof.
  apply (@run_accepts_every_configuration RefMath.lib tooSmallSample quietEnv);
    intros; reflexivity.
Defined.

(** C4, as stated, fails: with a single replication to run, a cancellation
    requested while the run is suspended before that replication -- before
    anything has been computed -- is never read, and the run resolves with
    the complete result. *)
Lemma late_cancellation_completes :
  abortWhileSuspended (abortDuring 0) 0 = true
  /\ invalidConfiguration (demoParams 2 1) = false
  /\ runMonteCarloAsync (M := RefMath.lib) (abortDuring 0) (demoParams 2 1)
     = Resolved (completedResult (M := RefMath.lib) (demoParams 2 1))
  /\ length (olsEstimates (completedResult (M := RefMath.lib) (demoParams 2 1)))
     = 1%nat.
Proof. repeat split; vm_compute; reflexivity. Qed.

Lemma cancellation_seen_at_a_check_witness :
  runMonteCarloAsync (M := RefMath.lib) (abortDuring 0) (demoParams 2 11)
  = Rejected cancelledMessage.
Proof.
  apply (@cancellation_seen_at_a_check RefMath.lib (demoParams 2 11)
           (abortDuring 0) (fun _ => eq_refl)).
  exists 1%nat. split; [vm_compute; lia | reflexivity].
Defined.

(** C5, as stated, fails: with batches of 10, a run of 20 replications
    reads the flag 20 times and meets 2 batching boundaries. *)
Lemma abort_flag_read_every_replication :
  batchSizeOf (demoParams 2 20) = 10%nat
  /\ length (filter isCheck
               (runEvents (M := RefMath.lib) quietEnv (demoParams 2 20)))
     = 20%nat
  /\ length (filter isSuspend
               (runEvents (M := RefMath.lib) quietEnv (demoParams 2 20)))
     = 2%nat.
Proof. repeat split; vm_compute; reflexivity. Qed.

Lemma estimateIV_guarded_quotient_witness :
  estimateIV [1; 2; 3] [5; 1; 9] [1; 1; 1] = 0
  /\ estimateIV [1; 2; 3] [5; 1; 9] [1; 0; 2] = 8.
Proof.
  split.
  - rewrite (estimateIV_guarded_quotient [1; 2; 3] [5; 1; 9] [1; 1; 1]);
      vm_compute; reflexivity.
  - rewrite (estimateIV_guarded_quotient [1; 2; 3] [5; 1; 9] [1; 0; 2]);
      vm_compute; reflexivity.
Defined.

Lemma replication_sample_witness :
  let p := demoParams 3 1 in
  let a := initialAccum p in
  let first :=
    generateCorrelatedNormals (M := RefMath.lib) 3 (endogeneity p) (acc_rng a) in
  let second := generateCorrelatedNormals (M := RefMath.lib) 3 0 (snd first) in
  let s := fst (generateSample (M := RefMath.lib) p (acc_rng a)) in
  (length (smp_x s) = 3%nat /\ length (smp_y s) = 3%nat)
  /\ exists ui vi zi,
       nth_error (fst (fst first)) 2 = Some ui
       /\ nth_error (snd (fst first)) 2 = Some vi
       /\ nth_error (fst (fst second)) 2 = Some zi
       /\ nth_error (smp_x s) 2 = Some (ivStrength p * zi + vi)
       /\ nth_error (smp_y s) 2
          = Some (betaTrue p * (ivStrength p * zi + vi) + ui).
Proof.
  cbv zeta.
  assert (H : (2 < Z.to_nat (sampleSize (demoParams 3 1)))%nat)
    by (vm_compute; lia).
  pose proof (@replication_sample RefMath.lib (demoParams 3 1)
                (initialAccum (demoParams 3 1)) 2%nat) as T.
  cbv zeta in T. destruct (T H) as ((_ & _ & _ & Lx & Ly) & _ & E & _).
  split; [split; [exact Lx|exact Ly]|exact E].
Defined.

(** The quotient of C7 at a perfect first-stage fit: [R² = 1], and the
    statistic is the infinity that [1 / 0] is. *)
Lemma firstStageF_perfect_fit :
  firstStageF (M := RefMath.lib) 3 [1; 2; 3] [2; 4; 6] = infinity.
Proof. vm_compute. reflexivity. Qed.

Lemma histogram_bins_end_to_end_witness :
  length (createHistogramData [0; 1] [0.5] 4) = 4%nat.
Proof.
  refine (proj1 (proj2 (histogram_bins_end_to_end [0; 1] [0.5] 4 _))).
  discriminate.
Defined.

(** C8, as stated, fails: three bins over the estimates 0 and 1 have three
    different widths. *)
Lemma histogram_widths_differ :
  let width := fun b => rangeEnd b - rangeStart b in
  exists b0 b1 b2,
    createHistogramData [0; 1] [] 3 = [b0; b1; b2]
    /\ (width b0 =? width b1) = false
    /\ (width b1 =? width b2) = false
    /\ (width b0 =? width b2) = false.
Proof.
  cbv zeta. do 3 eexists. split; [vm_compute; reflexivity|].
  repeat split; vm_compute; reflexivity.
Qed.

(** A histogram whose range trims: of the hundred estimates, the two
    lowest (-1000 and 1) and the highest (1000) lie outside the percentile
    positions 2 and 98, which hold 2 and 98. *)
Lemma histogram_range_witness :
  length (outlyingOLS ++ outlyingIV) = 100%nat
  /\ nth_error (sortNumbers (outlyingOLS ++ outlyingIV)) 0 = Some (-1000)
  /\ nth_error (sortNumbers (outlyingOLS ++ outlyingIV)) 2 = Some 2
  /\ nth_error (sortNumbers (outlyingOLS ++ outlyingIV)) 98 = Some 98
  /\ nth_error (sortNumbers (outlyingOLS ++ outlyingIV)) 99 = Some 1000
  /\ createHistogramData outlyingOLS outlyingIV 4
     = map (fun i =>
              let start := 2 - (98 - 2) * JS.c_0_1 in
              let step :=
                (98 + (98 - 2) * JS.c_0_1 - (2 - (98 - 2) * JS.c_0_1))
                / JS.ofNat 4 in
              let from := start + JS.ofNat i * step in
              let to := start + JS.ofNat (S i) * step in
              let among := fun l : list number =>
                if (length l =? 0)%nat then 0
                else JS.ofNat
                       (length (filter (fun v => (from <=? v) && (v <? to)) l))
                     / JS.ofNat (length l) in
              {| rangeStart := from;
                 rangeEnd := to;
                 olsFrequency := among outlyingOLS;
                 ivFrequency := among outlyingIV;
                 midpoint := (from + to) / 2 |})
         (seq 0 4).
Proof.
  split; [reflexivity|].
  split; [vm_compute; reflexivity|].
  split; [vm_compute; reflexivity|].
  split; [vm_compute; reflexivity|].
  split; [vm_compute; reflexivity|].
  refine (proj1 (proj2 (proj2
            (histogram_range outlyingOLS outlyingIV 4 2 98 2 98 _ _ _ _ _))));
    try (vm_compute; reflexivity).
  apply Forall_forall. intros v Hv.
  assert (H : forallb (fun v => negb (is_nan v)) (outlyingOLS ++ outlyingIV)
              = true) by (vm_compute; reflexivity).
  rewrite forallb_forall in H. specialize (H v Hv).
  destruct (is_nan v); [discriminate|reflexivity].
Defined.

Lemma histogram_of_constant_estimates_witness :
  length (createHistogramData [2; 2] [2] 3) = 3%nat
  /\ Forall (fun b => (rangeStart b =? 2) = true
                      /\ (rangeEnd b =? 2) = true
                      /\ olsFrequency b = 0
                      /\ ivFrequency b = 0)
       (createHistogramData [2; 2] [2] 3).
Proof.
  apply (histogram_of_constant_estimates [2; 2] [2] 3 2).
  - discriminate.
  - repeat constructor.
  - reflexivity.
Defined.

(** C10, as stated, fails: when every estimate is the same infinity, the
    bins do not start and end there; their bounds are NaN. *)
Lemma histogram_of_infinite_estimates :
  Forall (eq infinity) ([infinity] ++ [infinity])
  /\ createHistogramData [infinity] [infinity] 2
     = [ {| rangeStart := nan; rangeEnd := nan; olsFrequency := 0;
            ivFrequency := 0; midpoint := nan |};
         {| rangeStart := nan; rangeEnd := nan; olsFrequency := 0;
            ivFrequency := 0; midpoint := nan |} ]
  /\ (nan =? infinity) = false.
Proof.
  split; [repeat constructor|]. split; vm_compute; reflexivity.
Qed.

(** The first draws of the generator, as the source computes them from the
    seeds 0 and 12345: 32-bit integers over 2^32. *)
Lemma first_draws :
  fst (next (newSeededRNG 0)) = 1144304738 / 4294967296
  /\ fst (next (snd (next (newSeededRNG 0)))) = 1416247 / 4294967296
  /\ fst (next (newSeededRNG 12345)) = 4207900869 / 4294967296
  /\ fst (next (snd (next (newSeededRNG 12345)))) = 1317490944 / 4294967296.
Proof. repeat split; vm_compute; reflexivity. Qed.

(** X16. With no replication to run the loop body is never entered: the
    flag is not read, even when the signal is aborted already, and the run
    resolves with three empty sequences and four summary statistics that
    are NaN, quotients by a zero length. *)
Lemma run_without_replications (M : MathLib) (env : Env)
    (p : SimulationParams) :
  (replications p < 1)%Z ->
  runMonteCarloAsync env p
  = Resolved {| olsEstimates := []; ivEstimates := []; fStats := [];
                olsBias := nan; ivBias := nan;
                olsVariance := nan; ivVariance := nan |}.
Proof.
  intros HR. unfold runMonteCarloAsync, runLoop.
  replace (Z.to_nat (replications p)) with 0%nat
    by (destruct (replications p); [reflexivity|lia|reflexivity]).
  cbn [loop fst]. unfold summarize, initialAccum.
  cbn [acc_ols acc_iv acc_f].
  change (mean []) with nan. change (variance [] None) with nan.
  assert (E : nan - betaTrue p = nan).
  { apply Prim2SF_inj. rewrite sub_spec. reflexivity. }
  rewrite E. reflexivity.
Qed.

(** The quantity tested against 1e-9 in [estimateIV] is the sum of the
    products, not that sum divided by the number of observations: here the
    sum is 2^-29 (above the threshold, so the quotient is returned) while
    its half is below the threshold. *)
Lemma estimateIV_threshold_on_the_sum :
  crossSum [0; 0x1p-14] [0; 0x1p-14] = 0x1p-29
  /\ (abs (crossSum [0; 0x1p-14] [0; 0x1p-14]) <? JS.c_1e_9) = false
  /\ (abs (crossSum [0; 0x1p-14] [0; 0x1p-14] / 2) <? JS.c_1e_9) = true
  /\ estimateIV [0; 0x1p-14] [0; 1] [0; 0x1p-14] = 16384.
Proof. repeat split; vm_compute; reflexivity. Qed.

(** * The values of the generator *)

Section UnitInterval.

Local Open Scope float_scope.

(** A mantissa of full width at an exponent in range is its own rounding. *)
Lemma binary_round_aux_exact (s : bool) (m : positive) (e : Z) :
  Z.pos (digits2_pos m) = 53%Z ->
  (-1074 <= e <= 971)%Z ->
  binary_round_aux prec emax s (Z.pos m) e loc_Exact = S754_finite s m e.
Proof.
  intros Hd He. unfold binary_round_aux, shr_fexp. cbn [Zdigits2].
  assert (H0 : (fexp prec emax (Z.pos (digits2_pos m) + e) - e = 0)%Z)
    by (rewrite Hd; unfold fexp, emin, prec, emax; lia).
  rewrite H0. cbn [shr shr_record_of_loc shr_m loc_of_shr_record round_nearest_even].
  cbn [Zdigits2]. rewrite H0. cbn [shr shr_record_of_loc shr_m].
  replace (e <=? emax - prec)%Z with true
    by (symmetry; apply Z.leb_le; unfold emax, prec; lia).
  reflexivity.
Qed.

(** Twice such a mantissa, with nothing to round, is the mantissa at the
    next exponent. *)
Lemma binary_round_aux_double (s : bool) (m : positive) (e : Z) :
  Z.pos (digits2_pos m) = 53%Z ->
  (-1075 <= e <= 970)%Z ->
  binary_round_aux prec emax s (Z.pos m~0) e loc_Exact
  = S754_finite s m (e + 1).
Proof.
  intros Hd He. unfold binary_round_aux, shr_fexp. cbn [Zdigits2 digits2_pos].
  assert (H1 : (fexp prec emax (Z.pos (Pos.succ (digits2_pos m)) + e) - e = 1)%Z)
    by (rewrite Pos2Z.inj_succ, Hd; unfold fexp, emin, prec, emax; lia).
  rewrite H1.
  cbn [shr shr_record_of_loc iter_pos shr_1 shr_m loc_of_shr_record
       round_nearest_even orb].
  cbn [Zdigits2].
  assert (H0 : (fexp prec emax (Z.pos (digits2_pos m) + (e + 1)) - (e + 1) = 0)%Z)
    by (rewrite Hd; unfold fexp, emin, prec, emax; lia).
  rewrite H0. cbn [shr shr_record_of_loc shr_m].
  replace (e + 1 <=? emax - prec)%Z with true
    by (symmetry; apply Z.leb_le; unfold emax, prec; lia).
  reflexivity.
Qed.

(** The number of a positive integer below 2^53: its digits, moved up to
    the full width. *)
Lemma ofZ_small (p : positive) :
  (Z.pos (digits2_pos p) <= 52)%Z ->
  exists m,
    Prim2SF (JS.ofZ (Z.pos p))
    = S754_finite false m (Z.pos (digits2_pos p) - 53)
    /\ Z.pos (digits2_pos m) = 53%Z.
Proof.
  intros Hd. unfold JS.ofZ. cbn [Z.ltb Z.compare]. unfold JS.ofNonneg.
  rewrite of_uint63_spec, Uint63.of_Z_spec.
  pose proof (digits2_pos_upper p) as HU.
  assert (HP : (2 ^ Z.pos (digits2_pos p) <= 2 ^ 52)%Z)
    by (apply Z.pow_le_mono_r; lia).
  change (2 ^ 52)%Z with 4503599627370496%Z in HP.
  rewrite Z.min_l by (unfold JS.maxInt63; lia).
  rewrite Z.mod_small
    by (change Uint63Axioms.wB with 9223372036854775808%Z; lia).
  cbn [binary_normalize]. unfold binary_round, shl_align.
  assert (HF : (fexp prec emax (Z.pos (digits2_pos p) + 0)
                = Z.pos (digits2_pos p) - 53)%Z)
    by (unfold fexp, emin, prec, emax; lia).
  rewrite HF.
  destruct (Z.pos (digits2_pos p) - 53 - 0)%Z as [|k|k] eqn:Ek; try lia.
  exists (Pos.iter xO p k).
  assert (HD : Z.pos (digits2_pos (Pos.iter xO p k)) = 53%Z)
    by (rewrite digits2_pos_iter_xO; lia).
  split; [|exact HD].
  apply binary_round_aux_exact; [exact HD|lia].
Qed.

(** Dividing a full-width number by 2^32 lowers its exponent by 32. *)
Lemma div_two32 (m : positive) (e : Z) :
  Z.pos (digits2_pos m) = 53%Z ->
  (-1000 <= e <= 900)%Z ->
  SF64div (S754_finite false m e) (Prim2SF 4294967296)
  = S754_finite false m (e - 32).
Proof.
  intros Hd He.
  change (Prim2SF 4294967296) with (S754_finite false 4503599627370496 (-20)).
  unfold SF64div, SFdiv, SFdiv_core_binary. cbn [Zdigits2 xorb].
  change (Z.pos (digits2_pos 4503599627370496)) with 53%Z. rewrite Hd.
  assert (HE : (Z.min (fexp prec emax (53 + e - (53 + -20))) (e - -20) = e - 33)%Z)
    by (unfold fexp, emin, prec, emax; lia).
  rewrite HE.
  replace (e - -20 - (e - 33))%Z with 53%Z by lia.
  cbv beta iota zeta.
  assert (HQ : Z.div_eucl (Z.shiftl (Z.pos m) 53) 4503599627370496
               = (Z.pos m~0, 0%Z)).
  { pose proof (Z_div_mod (Z.shiftl (Z.pos m) 53) 4503599627370496 eq_refl) as HDM.
    destruct (Z.div_eucl (Z.shiftl (Z.pos m) 53) 4503599627370496) as [q r].
    rewrite Z.shiftl_mul_pow2 in HDM by lia.
    change (2 ^ 53)%Z with 9007199254740992%Z in HDM.
    destruct HDM as [H1 H2]. f_equal; lia. }
  rewrite HQ.
  change (new_location 4503599627370496 0) with loc_Exact.
  rewrite binary_round_aux_double by (try exact Hd; lia).
  f_equal. lia.
Qed.

Lemma wrapU32_range (z : Z) : (0 <= JS.wrapU32 z < 4294967296)%Z.
Proof. unfold JS.wrapU32, JS.two32. apply Z.mod_pos_bound. lia. Qed.

Lemma digits2_pos_32 (p : positive) :
  (Z.pos p < 4294967296)%Z -> (Z.pos (digits2_pos p) <= 32)%Z.
Proof.
  intros Hp. pose proof (digits2_pos_lower p) as HL.
  destruct (Z.le_gt_cases (Z.pos (digits2_pos p)) 32) as [H|H]; [exact H|].
  assert (2 ^ 32 <= 2 ^ (Z.pos (digits2_pos p) - 1))%Z
    by (apply Z.pow_le_mono_r; lia).
  change (2 ^ 32)%Z with 4294967296%Z in *. lia.
Qed.

(** A 32-bit unsigned integer over 2^32 is a number of [[0, 1)]. *)
Lemma uint32_over_two32 (k : Z) :
  (0 <= k < 4294967296)%Z ->
  (0 <=? JS.ofZ k / 4294967296) = true
  /\ (JS.ofZ k / 4294967296 <? 1) = true.
Proof.
  intros Hk. destruct k as [|p|p]; try lia.
  - split; reflexivity.
  - pose proof (digits2_pos_32 p (proj2 Hk)) as HD.
    destruct (ofZ_small p) as (m & Hm & Hd); [lia|].
    rewrite leb_spec, ltb_spec, div_spec, Hm.
    rewrite div_two32 by (try exact Hd; lia).
    change (Prim2SF 0) with (S754_zero false).
    change (Prim2SF 1) with (S754_finite false 4503599627370496 (-52)).
    split; [reflexivity|].
    unfold SFltb. cbn [SFcompare].
    replace (Z.pos (digits2_pos p) - 53 - 32 ?= -52)%Z with Lt
      by (symmetry; apply Z.compare_lt_iff; lia).
    reflexivity.
Qed.

(** The value of [next ()]: a 32-bit unsigned integer over 2^32. *)
Lemma next_value (rng : SeededRNG) :
  exists k, (0 <= k < 4294967296)%Z
            /\ fst (next rng) = JS.ofZ k / 4294967296.
Proof.
  unfold next. cbn [fst]. eexists. split; [apply wrapU32_range|reflexivity].
Qed.

Lemma next_unit (rng : SeededRNG) :
  (0 <=? fst (next rng)) = true /\ (fst (next rng) <? 1) = true.
Proof.
  destruct (next_value rng) as (k & Hk & ->). apply uint32_over_two32. exact Hk.
Qed.

Lemma leb_not_leb_ltb (a b : number) :
  (a <=? b) = true -> (b <=? a) = false -> (a <? b) = true.
Proof.
  rewrite !leb_spec, ltb_spec. unfold SFleb, SFltb.
  rewrite (SFcompare_antisym (Prim2SF a) (Prim2SF b)).
  destruct (SFcompare (Prim2SF a) (Prim2SF b)) as [[| |]|];
    cbn [option_map CompOpp]; congruence.
Qed.

Lemma ltb_not_leb (a b : number) : (a <? b) = true -> (b <=? a) = false.
Proof.
  rewrite leb_spec, ltb_spec. unfold SFleb, SFltb.
  rewrite (SFcompare_antisym (Prim2SF a) (Prim2SF b)).
  destruct (SFcompare (Prim2SF a) (Prim2SF b)) as [[| |]|];
    cbn [option_map CompOpp]; congruence.
Qed.

Lemma ltb_leb (a b : number) : (a <? b) = true -> (a <=? b) = true.
Proof.
  rewrite leb_spec, ltb_spec. unfold SFleb, SFltb.
  destruct (SFcompare (Prim2SF a) (Prim2SF b)) as [[| |]|]; congruence.
Qed.

End UnitInterval.

(** X1. [next ()] returns a 32-bit unsigned integer divided by 2^32, a
    number that is at least 0 and below 1, whatever the state of the
    generator (a seed that is not an integer, NaN or an infinity included). *)
Theorem next_in_unit_interval (rng : SeededRNG) :
  (exists k, (0 <= k < 4294967296)%Z
             /\ fst (next rng) = (JS.ofZ k / 4294967296)%float)
  /\ (0 <=? fst (next rng))%float = true
  /\ (fst (next rng) <? 1)%float = true.
Proof. split; [apply next_value|apply next_unit]. Qed.
(** * The stream of draws and the samples of a run *)

Section Draws.

Context {M : MathLib}.

Local Open Scope float_scope.

Lemma afterDraws_add (j k : nat) (rng : SeededRNG) :
  afterDraws j (afterDraws k rng) = afterDraws (j + k) rng.
Proof. unfold afterDraws. symmetry. apply Nat.iter_add. Qed.

Lemma afterDraws_two_more (k : nat) (rng : SeededRNG) :
  afterDraws k (advance (advance rng)) = afterDraws (2 + k) rng.
Proof.
  unfold afterDraws. replace (2 + k)%nat with (k + 2)%nat by lia.
  rewrite Nat.iter_add. reflexivity.
Qed.

Lemma correlatedPair_parts (rho : number) (rng : SeededRNG) :
  fst (correlatedPair rho rng)
  = boxMuller rho (logArgument rng) (fst (next (advance rng)))
  /\ snd (correlatedPair rho rng) = advance (advance rng).
Proof.
  unfold correlatedPair, boxMuller, logArgument, advance.
  destruct (next rng) as [u1 rng1]. cbn [fst snd].
  destruct (next rng1) as [u2 rng2]. cbn [fst snd]. split; reflexivity.
Qed.

Lemma correlatedLoop_draws (rho rho' : number) (todo : nat) :
  forall u u' v rng,
    snd (correlatedLoop todo rho u v rng) = afterDraws (2 * todo) rng
    /\ snd (fst (correlatedLoop todo rho u v rng))
       = snd (fst (correlatedLoop todo rho' u' v rng)).
Proof.
  induction todo as [|todo IH]; intros u u' v rng; cbn [correlatedLoop].
  - split; reflexivity.
  - destruct (correlatedPair_parts rho rng) as [P1 P2].
    destruct (correlatedPair_parts rho' rng) as [Q1 Q2].
    destruct (correlatedPair rho rng) as [[valU valV] rng1].
    destruct (correlatedPair rho' rng) as [[valU' valV'] rng1'].
    cbn [fst snd] in *. subst rng1 rng1'.
    assert (EV : valV = valV').
    { change valV with (snd (valU, valV)).
      change valV' with (snd (valU', valV')).
      rewrite P1, Q1. reflexivity. }
    subst valV'.
    destruct (IH (u ++ [valU]) (u' ++ [valU']) (v ++ [valV])
                (advance (advance rng))) as [H1 H2].
    split; [|exact H2].
    rewrite H1, afterDraws_two_more. f_equal. lia.
Qed.

Lemma generateCorrelatedNormals_state (n : Z) (rho : number) (rng : SeededRNG) :
  snd (generateCorrelatedNormals n rho rng) = afterDraws (2 * Z.to_nat n) rng.
Proof.
  unfold generateCorrelatedNormals.
  apply (correlatedLoop_draws rho rho (Z.to_nat n) [] [] [] rng).
Qed.

Lemma generateCorrelatedNormals_second (n : Z) (rho rho' : number)
    (rng : SeededRNG) :
  snd (fst (generateCorrelatedNormals n rho rng))
  = snd (fst (generateCorrelatedNormals n rho' rng)).
Proof.
  unfold generateCorrelatedNormals.
  apply (correlatedLoop_draws rho rho' (Z.to_nat n) [] [] [] rng).
Qed.

Lemma generateSample_state (p : SimulationParams) (rng : SeededRNG) :
  snd (generateSample p rng) = afterDraws (4 * Z.to_nat (sampleSize p)) rng.
Proof.
  unfold generateSample.
  pose proof (generateCorrelatedNormals_state (sampleSize p) (endogeneity p) rng)
    as H1.
  destruct (generateCorrelatedNormals (sampleSize p) (endogeneity p) rng)
    as [[u v] rng1].
  pose proof (generateCorrelatedNormals_state (sampleSize p) 0 rng1) as H2.
  destruct (generateCorrelatedNormals (sampleSize p) 0 rng1) as [[z w] rng2].
  cbn [snd] in *. rewrite H2, H1, afterDraws_add. f_equal. lia.
Qed.

Lemma replication_state (p : SimulationParams) (a : Accum) :
  acc_rng (replication p a)
  = afterDraws (4 * Z.to_nat (sampleSize p)) (acc_rng a).
Proof.
  unfold replication.
  pose proof (generateSample_state p (acc_rng a)) as H.
  destruct (generateSample p (acc_rng a)) as [s rng']. exact H.
Qed.

Lemma replication_pushes (p : SimulationParams) (a : Accum) :
  let s := sampleAt p (acc_rng a) in
  acc_ols (replication p a) = acc_ols a ++ [estimateOLS (smp_x s) (smp_y s)]
  /\ acc_iv (replication p a)
     = acc_iv a ++ [estimateIV (smp_x s) (smp_y s) (smp_z s)]
  /\ acc_f (replication p a)
     = acc_f a ++ [firstStageF (sampleSize p) (smp_z s) (smp_x s)].
Proof.
  cbv zeta. unfold replication, sampleAt.
  destruct (generateSample p (acc_rng a)) as [s rng'].
  cbn [fst acc_ols acc_iv acc_f]. auto.
Qed.

(** After [k] replications the three sequences hold, behind what they
    held, the numbers of the samples drawn at the states [4·N·j] draws
    on, for [j] below [k]. *)
Lemma iterReplication_stream (p : SimulationParams) (k : nat) :
  forall a,
    let N4 := (4 * Z.to_nat (sampleSize p))%nat in
    let at_ := fun j => sampleAt p (afterDraws (N4 * j) (acc_rng a)) in
    acc_rng (iterReplication p k a) = afterDraws (N4 * k) (acc_rng a)
    /\ acc_ols (iterReplication p k a)
       = acc_ols a
         ++ map (fun j => estimateOLS (smp_x (at_ j)) (smp_y (at_ j))) (seq 0 k)
    /\ acc_iv (iterReplication p k a)
       = acc_iv a
         ++ map (fun j => estimateIV (smp_x (at_ j)) (smp_y (at_ j))
                            (smp_z (at_ j))) (seq 0 k)
    /\ acc_f (iterReplication p k a)
       = acc_f a
         ++ map (fun j => firstStageF (sampleSize p) (smp_z (at_ j))
                            (smp_x (at_ j))) (seq 0 k).
Proof.
  induction k as [|k IH]; intros a; cbv zeta; cbn [iterReplication].
  - rewrite Nat.mul_0_r. cbn [seq map]. rewrite !app_nil_r. auto.
  - specialize (IH (replication p a)). cbv zeta in IH.
    destruct IH as (H0 & H1 & H2 & H3).
    destruct (replication_pushes p a) as (P1 & P2 & P3). cbv zeta in P1, P2, P3.
    rewrite H0, H1, H2, H3, P1, P2, P3, replication_state.
    assert (E : forall j,
               afterDraws (4 * Z.to_nat (sampleSize p) * j)
                 (afterDraws (4 * Z.to_nat (sampleSize p)) (acc_rng a))
               = afterDraws (4 * Z.to_nat (sampleSize p) * S j) (acc_rng a))
      by (intros j; rewrite afterDraws_add; f_equal; lia).
    rewrite E. cbn [seq map]. rewrite <- !seq_shift, !map_map.
    rewrite Nat.mul_0_r. cbn [afterDraws Nat.iter].
    rewrite <- !app_assoc. cbn [app].
    repeat split; do 2 f_equal; apply map_ext; intros j; rewrite E; reflexivity.
Qed.




End Draws.

(** X2. A call of [generateCorrelatedNormals] returns two sequences of [n]
    numbers each (none when [n] is not positive) and leaves the generator
    exactly [2·n] draws on; the second sequence and the state left do not
    depend on the correlation asked for. *)
Theorem generateCorrelatedNormals_draws {M : MathLib} (n : Z)
    (rho rho' : number) (rng : SeededRNG) :
  let out := generateCorrelatedNormals n rho rng in
  length (fst (fst out)) = Z.to_nat n
  /\ length (snd (fst out)) = Z.to_nat n
  /\ snd out = afterDraws (2 * Z.to_nat n) rng
  /\ snd (fst out) = snd (fst (generateCorrelatedNormals n rho' rng)).
Proof.
  cbv zeta.
  destruct (generateCorrelatedNormals_lengths n rho rng) as [L1 L2].
  repeat split; auto.
  - apply generateCorrelatedNormals_state.
  - apply generateCorrelatedNormals_second.
Qed.




(** X4. Box-Muller is fed as the source intends: the number handed to
    [Math.log] is the first draw, or 1e-7 in its place when that draw is 0,
    and lies strictly between 0 and 1; the angle is [2π] times the second
    draw, which lies in [[0, 1)]. *)
Theorem box_muller_arguments {M : MathLib} (rho : number) (rng : SeededRNG) :
  let a := logArgument rng in
  let u2 := fst (next (advance rng)) in
  fst (correlatedPair rho rng) = boxMuller rho a u2
  /\ (0 <? a)%float = true /\ (a <? 1)%float = true
  /\ (0 <=? u2)%float = true /\ (u2 <? 1)%float = true.
Proof.
  cbv zeta. split; [apply correlatedPair_parts|].
  split; [|split; [|apply next_unit]].
  - unfold logArgument. cbv zeta.
    destruct (next_unit rng) as [H0 _].
    destruct (fst (next rng) <=? 0)%float eqn:E; [reflexivity|].
    apply leb_not_leb_ltb; assumption.
  - unfold logArgument. cbv zeta.
    destruct (next_unit rng) as [_ H1].
    destruct (fst (next rng) <=? 0)%float; [reflexivity|exact H1].
Qed.

(** * The estimators on their own *)

Section Estimators.

Context {M : MathLib}.

Local Open Scope float_scope.

Lemma squares_by_index (x : list number) :
  fold_left (fun (den : number) i =>
               den + (JS.get x i - mean x) * (JS.get x i - mean x))
    (seq 0 (length x)) 0
  = crossSum x x.
Proof.
  unfold crossSum. rewrite (combine_by_index x x) by reflexivity.
  rewrite fold_left_map_list. reflexivity.
Qed.

Lemma mul_nan_l (x : number) : nan * x = nan.
Proof.
  apply Prim2SF_inj. rewrite mul_spec.
  change (Prim2SF nan) with S754_nan.
  destruct (Prim2SF x); reflexivity.
Qed.

Lemma map_constant {A B : Type} (f : A -> B) (c : B) (l : list A) :
  (forall x, f x = c) -> map f l = repeat c (length l).
Proof.
  intros H. induction l as [|x l IH]; cbn [map length repeat]; [reflexivity|].
  rewrite H, IH. reflexivity.
Qed.

Lemma sampleAt_empty (p : SimulationParams) (rng : SeededRNG) :
  (sampleSize p <= 0)%Z ->
  sampleAt p rng
  = {| err_u := []; err_v := []; smp_z := []; smp_x := []; smp_y := [] |}.
Proof.
  intros H. unfold sampleAt, generateSample, generateCorrelatedNormals.
  replace (Z.to_nat (sampleSize p)) with 0%nat by lia. reflexivity.
Qed.

Lemma firstStageF_empty (n : Z) : firstStageF n [] [] = nan.
Proof.
  unfold firstStageF.
  change (variance [] None) with nan. rewrite mul_nan_l.
  change (1 - fold_left (fun acc val => acc + val * val)
                (mapi (fun val i =>
                         val - JS.get (map (fun val0 => estimateOLS [] [] * val0) []) i)
                   []) 0 / nan) with nan.
  rewrite mul_nan_l. reflexivity.
Qed.

End Estimators.

(** X5. On sequences of one length, [estimateOLS] is the quotient of
    [Σ (xᵢ − x̄)(yᵢ − ȳ)] by [Σ (xᵢ − x̄)²], taken as it stands: no guard
    protects the division, unlike in [estimateIV]. *)
Theorem estimateOLS_quotient (x y : list number) :
  length y = length x ->
  estimateOLS x y = (crossSum x y / crossSum x x)%float.
Proof.
  intros Hy. unfold estimateOLS, crossSum.
  rewrite (fold_left_pair
             (fun num i => num + (JS.get x i - mean x) * (JS.get y i - mean y))
             (fun den i => den + (JS.get x i - mean x) * (JS.get x i - mean x)))%float.
  rewrite (combine_by_index x x) by reflexivity.
  rewrite (combine_by_index x y) by lia.
  rewrite !fold_left_map_list. reflexivity.
Qed.

(** X6. With the regressor as its own instrument, [estimateIV] is
    [estimateOLS] behind the guard: 0 when [Σ (xᵢ − x̄)²] is below 1e-9 in
    magnitude, the OLS estimate otherwise; this for sequences of any
    lengths. *)
Theorem estimateIV_own_instrument (x y : list number) :
  estimateIV x y x
  = (if abs (crossSum x x) <? JS.c_1e_9 then 0 else estimateOLS x y)%float.
Proof.
  unfold estimateIV, estimateOLS.
  rewrite (fold_left_pair
             (fun num i => num + (JS.get x i - mean x) * (JS.get y i - mean y))
             (fun den i => den + (JS.get x i - mean x) * (JS.get x i - mean x)))%float.
  rewrite (squares_by_index x). reflexivity.
Qed.

(** X7. A run whose sample size is not positive is carried out like any
    other: unless it is stopped or left paused it resolves.  It draws
    nothing: every replication generates five empty sequences and hands the
    generator on as it got it, so the run leaves the generator in the state
    the seed gave it, however far it gets.  Every OLS estimate and every F
    statistic of the result is NaN, and every IV estimate is the 0 of the
    guard. *)
Theorem run_on_empty_samples {M : MathLib} (p : SimulationParams)
    (env : Env) :
  (sampleSize p <= 0)%Z ->
  abortedAtCall env = false ->
  (forall r, abortWhileSuspended env r = false) ->
  (forall r, pauseReturns env r = true) ->
  let R := Z.to_nat (replications p) in
  (exists res,
      runMonteCarloAsync env p = Resolved res
      /\ olsEstimates res = repeat nan R
      /\ ivEstimates res = repeat 0%float R
      /\ fStats res = repeat nan R)
  /\ (forall rng,
        generateSample p rng
        = ({| err_u := []; err_v := []; smp_z := []; smp_x := []; smp_y := [] |},
           rng))
  /\ (forall env',
        acc_rng (accumOf (fst (runLoop env' p))) = newSeededRNG (seed p)).
Proof.
  intros HN H0 HA HP. cbv zeta. split; [|split].
  - exists (completedResult p). split.
    + apply run_completes; intros r _; [|apply HP].
      apply abortedBy_never; assumption.
    + unfold completedResult, summarize.
      cbn [olsEstimates ivEstimates fStats].
      destruct (iterReplication_stream p (Z.to_nat (replications p))
                  (initialAccum p)) as (_ & H1 & H2 & H3).
      cbv zeta in H1, H2, H3. rewrite H1, H2, H3.
      cbn [initialAccum acc_ols acc_iv acc_f acc_rng app].
      repeat split.
      * rewrite (map_constant _ nan), length_seq; [reflexivity|].
        intros j. rewrite sampleAt_empty by exact HN. reflexivity.
      * rewrite (map_constant _ 0%float), length_seq; [reflexivity|].
        intros j. rewrite sampleAt_empty by exact HN. reflexivity.
      * rewrite (map_constant _ nan), length_seq; [reflexivity|].
        intros j. rewrite sampleAt_empty by exact HN.
        cbn [smp_z smp_x]. apply firstStageF_empty.
  - intros rng. unfold generateSample, generateCorrelatedNormals.
    replace (Z.to_nat (sampleSize p)) with 0%nat by lia. reflexivity.
  - intros env'. unfold runLoop.
    destruct (loop_shape env' p (batchSizeOf p) (Z.to_nat (replications p)) 0
                (abortedAtCall env') (initialAccum p)) as (k & Ha & _ & _).
    rewrite Ha.
    destruct (iterReplication_stream p k (initialAccum p)) as (Hr & _).
    cbv zeta in Hr. rewrite Hr.
    replace (Z.to_nat (sampleSize p)) with 0%nat by lia. reflexivity.
Qed.

(** * A pause the user does not lift *)

Section Pauses.

Context {M : MathLib}.

Lemma abortedBy_before (env : Env) (K r : nat) :
  abortedBy env K r = false ->
  forall r', (r' <= r)%nat -> abortedBy env K r' = false.
Proof.
  induction r as [|r IH]; intros H r' Hr.
  - replace r' with 0%nat by lia. exact H.
  - destruct (Nat.eq_dec r' (S r)) as [->|Hne]; [exact H|].
    cbn [abortedBy] in H. apply orb_false_iff in H. destruct H as [H _].
    apply IH; [exact H|lia].
Qed.

(** A pause that is not lifted holds the loop, whatever is asked of the
    signal meanwhile. *)
Lemma loop_hangs (env : Env) (p : SimulationParams) (K target : nat) :
  abortedBy env K target = false ->
  (target mod K =? 0)%nat = true ->
  pauseReturns env target = false ->
  (forall b, (b < target)%nat -> pauseReturns env b = true) ->
  forall todo r a,
    (r <= target < r + todo)%nat ->
    exists a', fst (loop env p K todo r (abortedBy env K r) a) = LoopHang a'.
Proof.
  intros HT HB HN HP. induction todo as [|todo IH]; intros r a Hr; [lia|].
  cbn [loop]. rewrite (abortedBy_before env K target HT r) by lia.
  destruct (Nat.eq_dec r target) as [->|Hne].
  - rewrite HB, HN. exists a. reflexivity.
  - assert (Hnext : abortedBy env K (S r)
                    = ((r mod K =? 0)%nat && abortWhileSuspended env r))
      by (cbn [abortedBy]; rewrite (abortedBy_before env K target HT r) by lia;
          reflexivity).
    destruct (IH (S r) (replication p a)) as [a' Ha']; [lia|].
    rewrite Hnext in Ha'.
    destruct (r mod K =? 0)%nat.
    + rewrite HP by lia. cbn [andb] in Ha'.
      destruct (loop env p K todo (S r) (abortWhileSuspended env r)
                  (replication p a)).
      exists a'. exact Ha'.
    + cbn [andb] in Ha'.
      destruct (loop env p K todo (S r) false (replication p a)).
      exists a'. exact Ha'.
Qed.

End Pauses.

(** X8. A cancellation does not end a pause.  When the run reaches a
    batching boundary with the flag unset and the pause check there never
    returns, the run stays pending -- it neither resolves nor rejects --
    whether or not the signal is aborted during that pause. *)
Theorem pause_defers_cancellation {M : MathLib} (env : Env)
    (p : SimulationParams) (b : nat) :
  (b < Z.to_nat (replications p))%nat ->
  (b mod batchSizeOf p =? 0)%nat = true ->
  abortedBy env (batchSizeOf p) b = false ->
  (forall r, (r < b)%nat -> pauseReturns env r = true) ->
  pauseReturns env b = false ->
  runMonteCarloAsync env p = Pending.
Proof.
  intros Hb HB HA HP HN.
  destruct (loop_hangs env p (batchSizeOf p) b HA HB HN HP
              (Z.to_nat (replications p)) 0%nat (initialAccum p)) as [a' Ha'];
    [lia|].
  unfold runMonteCarloAsync, runLoop.
  change (abortedAtCall env) with (abortedBy env (batchSizeOf p) 0).
  rewrite Ha'. reflexivity.
Qed.

(** * The bins as sets of values *)

(** X9. Every bin of a histogram counts, for either estimator, the
    estimates [v] with [rangeStart <= v < rangeEnd], over the number of all
    the estimates of that estimator (0 when there is none).  A bin that is
    not the last is followed by a bin that starts where it ends, and no
    number is counted by both, the boundary they share belonging to the
    upper one; after the last bin there is none. *)
Theorem neighbouring_bins_are_disjoint (ols iv : list number) (bins i : nat) :
  ols ++ iv <> [] ->
  (i < bins)%nat ->
  exists b,
    nth_error (createHistogramData ols iv bins) i = Some b
    /\ olsFrequency b
       = (if (length ols =? 0)%nat then 0
          else JS.ofNat (length (filter (inBin b) ols)) / JS.ofNat (length ols))%float
    /\ ivFrequency b
       = (if (length iv =? 0)%nat then 0
          else JS.ofNat (length (filter (inBin b) iv)) / JS.ofNat (length iv))%float
    /\ (if (S i <? bins)%nat
        then exists b',
               nth_error (createHistogramData ols iv bins) (S i) = Some b'
               /\ rangeStart b' = rangeEnd b
               /\ forall v, inBin b v && inBin b' v = false
        else nth_error (createHistogramData ols iv bins) (S i) = None).
Proof.
  intros Hne Hi. unfold createHistogramData.
  rewrite (nonempty_length _ Hne).
  destruct (histogramRange (ols ++ iv) bins) as [start step].
  rewrite !nth_error_map_seq.
  replace (i <? bins)%nat with true by (symmetry; apply Nat.ltb_lt; lia).
  eexists. split; [reflexivity|]. split; [reflexivity|]. split; [reflexivity|].
  destruct (S i <? bins)%nat; [|reflexivity].
  eexists. split; [reflexivity|]. split; [reflexivity|].
  intros v. unfold inBin, histogramBin. cbn [rangeStart rangeEnd].
  destruct (v <? start + JS.ofNat (S i) * step)%float eqn:E.
  - rewrite (ltb_not_leb _ _ E). rewrite andb_false_r. reflexivity.
  - rewrite andb_false_r. reflexivity.
Qed.

(** * The application *)

Section Application.

Lemma freshSignal_never (env : Env) (K : nat) :
  (forall r, abortWhileSuspended env r = false) ->
  forall r, abortedBy (App.freshSignal env) K r = false.
Proof. intros H. apply abortedBy_never; [reflexivity|exact H]. Qed.

Lemma length_createHistogramData (ols iv : list number) (bins : nat) :
  length (createHistogramData ols iv bins)
  = if (length (ols ++ iv) =? 0)%nat then 0%nat else bins.
Proof.
  unfold createHistogramData. destruct (length (ols ++ iv) =? 0)%nat.
  - reflexivity.
  - destruct (histogramRange (ols ++ iv) bins) as [start step].
    rewrite length_map, length_seq. reflexivity.
Qed.

Lemma string_append_assoc (a b c : String.string) :
  String.append (String.append a b) c = String.append a (String.append b c).
Proof.
  induction a as [|ch a IH]; cbn [String.append]; [reflexivity|].
  rewrite IH. reflexivity.
Qed.

Lemma string_append_empty (a : String.string) :
  String.append a String.EmptyString = a.
Proof.
  induction a as [|ch a IH]; cbn [String.append]; [reflexivity|].
  rewrite IH. reflexivity.
Qed.

Lemma csvLoop_rows (toFixed : number -> nat -> String.string)
    (res : SimulationResult) (todo : nat) :
  forall i csv,
    (i + todo <= length (olsEstimates res))%nat ->
    (i + todo <= length (ivEstimates res))%nat ->
    (i + todo <= length (fStats res))%nat ->
    App.csvLoop toFixed res todo i csv
    = Some (String.append csv (App.csvRows toFixed res i todo)).
Proof.
  induction todo as [|todo IH]; intros i csv H1 H2 H3; cbn [App.csvLoop].
  - unfold App.csvRows. cbn [seq map fold_right].
    rewrite string_append_empty. reflexivity.
  - unfold JS.get in *.
    rewrite (nth_error_nth' (olsEstimates res) nan) by lia.
    rewrite (nth_error_nth' (ivEstimates res) nan) by lia.
    rewrite (nth_error_nth' (fStats res) nan) by lia.
    rewrite IH by lia. unfold App.csvRows, JS.get. cbn [seq map fold_right].
    rewrite string_append_assoc. reflexivity.
Qed.

Lemma csvLoop_short (toFixed : number -> nat -> String.string)
    (res : SimulationResult) (todo : nat) :
  forall i csv,
    ((length (ivEstimates res) < i + todo)%nat
     \/ (length (fStats res) < i + todo)%nat) ->
    (i <= length (ivEstimates res))%nat ->
    (i <= length (fStats res))%nat ->
    (i + todo <= length (olsEstimates res))%nat ->
    App.csvLoop toFixed res todo i csv = None.
Proof.
  induction todo as [|todo IH]; intros i csv HS H2 H3 H1; [lia|].
  cbn [App.csvLoop].
  rewrite (nth_error_nth' (olsEstimates res) nan) by lia.
  destruct (nth_error (ivEstimates res) i) as [v|] eqn:Ev; [|reflexivity].
  destruct (nth_error (fStats res) i) as [f|] eqn:Ef; [|reflexivity].
  assert (i < length (ivEstimates res))%nat
    by (apply nth_error_Some; congruence).
  assert (i < length (fStats res))%nat
    by (apply nth_error_Some; congruence).
  apply IH; lia.
Qed.

End Application.

(** X10. A run that is neither stopped nor left paused ends with its result
    on display: the handler returns with the result of the run stored, the
    chart data replaced by a histogram of exactly 40 bins (of none when the
    run had no replication), both execution flags down and the controller
    dropped. *)
Theorem completed_run_is_shown {M : MathLib} (env : Env) (st : App.State) :
  App.isRunning st = false ->
  (forall r, abortWhileSuspended env r = false) ->
  (forall r, pauseReturns env r = true) ->
  exists st',
    App.handleRunSimulation env st = App.Returned st'
    /\ App.result st' = Some (completedResult (App.params st))
    /\ length (App.chartData st')
       = (if (0 <? App.replications st)%Z then 40%nat else 0%nat)
    /\ App.isRunning st' = false
    /\ App.isPaused st' = false
    /\ App.abortController st' = false.
Proof.
  intros HR HA HP. unfold App.handleRunSimulation. rewrite HR.
  rewrite (run_completes (App.freshSignal env) (App.params st))
    by (intros r _; first [apply freshSignal_never; exact HA|apply HP]).
  eexists. split; [reflexivity|].
  cbn [App.finished App.shown App.started App.result App.chartData
       App.isRunning App.isPaused App.abortController].
  repeat split.
  rewrite length_createHistogramData, length_app.
  destruct (completedResult_lengths (App.params st)) as (L1 & L2 & _).
  rewrite L1, L2. cbn [App.params replications].
  destruct (Z.ltb_spec 0 (App.replications st)) as [H|H].
  - replace (Z.to_nat (App.replications st) + Z.to_nat (App.replications st)
             =? 0)%nat with false by (symmetry; apply Nat.eqb_neq; lia).
    reflexivity.
  - replace (Z.to_nat (App.replications st)) with 0%nat by lia. reflexivity.
Qed.

(** X11. A run the user stops leaves no result but keeps the chart: when
    one of the checks of the run reads the flag set, the handler returns
    with the result cleared, the chart data exactly as they were before the
    run, both execution flags down and the controller dropped. *)
Theorem cancelled_run_keeps_the_chart {M : MathLib} (env : Env)
    (st : App.State) (r : nat) :
  App.isRunning st = false ->
  (forall b, pauseReturns env b = true) ->
  (r < Z.to_nat (App.replications st))%nat ->
  abortedBy (App.freshSignal env) (batchSizeOf (App.params st)) r = true ->
  exists st',
    App.handleRunSimulation env st = App.Returned st'
    /\ App.result st' = None
    /\ App.chartData st' = App.chartData st
    /\ App.isRunning st' = false
    /\ App.isPaused st' = false
    /\ App.abortController st' = false.
Proof.
  intros HR HP Hr Hab. unfold App.handleRunSimulation. rewrite HR.
  destruct (loop_throws (App.freshSignal env) (App.params st)
              (batchSizeOf (App.params st)) r Hab (fun b _ => HP b)
              (Z.to_nat (replications (App.params st))) 0%nat
              (initialAccum (App.params st))) as [a' Ha'];
    [cbn [App.params replications]; lia|].
  unfold runMonteCarloAsync, runLoop.
  change (abortedAtCall (App.freshSignal env))
    with (abortedBy (App.freshSignal env) (batchSizeOf (App.params st)) 0).
  rewrite Ha'. eexists. split; [reflexivity|]. repeat split.
Qed.

(** X12. The export reads all three sequences up to the length of the
    first: it offers the file -- the header, then one line per OLS estimate
    -- when the other two sequences are at least as long, and throws when
    one of them is shorter. *)
Theorem export_needs_equal_lengths
    (toFixed : number -> nat -> String.string) (st : App.State)
    (res : SimulationResult) :
  App.result st = Some res ->
  App.handleDownloadData toFixed st
  = if (length (olsEstimates res) <=? length (ivEstimates res))%nat
       && (length (olsEstimates res) <=? length (fStats res))%nat
    then App.Downloaded
           (String.append App.csvHeader
              (App.csvRows toFixed res 0 (length (olsEstimates res))))
    else App.DownloadError.
Proof.
  intros HR. unfold App.handleDownloadData. rewrite HR.
  destruct (Nat.leb_spec (length (olsEstimates res)) (length (ivEstimates res)))
    as [H2|H2];
    destruct (Nat.leb_spec (length (olsEstimates res)) (length (fStats res)))
      as [H3|H3]; cbn [andb].
  - rewrite csvLoop_rows by (cbn [Nat.add]; lia). reflexivity.
  - rewrite csvLoop_short by (cbn [Nat.add]; lia). reflexivity.
  - rewrite csvLoop_short by (cbn [Nat.add]; lia). reflexivity.
  - rewrite csvLoop_short by (cbn [Nat.add]; lia). reflexivity.
Qed.

(** X13. The assumption written in the export holds for every result a run
    hands out: exporting the result of a completed run never throws, and
    the file holds the header and one line per replication, numbered from 1
    in the order of the run. *)
Theorem export_of_a_run {M : MathLib}
    (toFixed : number -> nat -> String.string) (env : Env)
    (p : SimulationParams) (res : SimulationResult) (st : App.State) :
  runMonteCarloAsync env p = Resolved res ->
  App.result st = Some res ->
  App.handleDownloadData toFixed st
  = App.Downloaded
      (String.append App.csvHeader
         (App.csvRows toFixed res 0 (Z.to_nat (replications p)))).
Proof.
  intros HRun HR. unfold App.handleDownloadData. rewrite HR.
  rewrite (run_resolved env p res HRun).
  destruct (completedResult_lengths p) as (L1 & L2 & L3).
  rewrite csvLoop_rows by (cbn [Nat.add]; lia).
  rewrite L1. reflexivity.
Qed.

(** X14. The replications field never hands on fewer than 10 replications,
    nor NaN: whatever number the text of the field parses to, the value
    stored is that number when it is above 10, and 10 otherwise (for NaN as
    well); the seed field stores 0 for a text that parses to NaN. *)
Theorem replications_field_floor (parsed : number) :
  App.replicationsOnChange parsed
  = (if 10 <? parsed then parsed else 10)%float
  /\ (10 <=? App.replicationsOnChange parsed)%float = true
  /\ is_nan (App.seedOnChange parsed) = false.
Proof.
  assert (HV : App.replicationsOnChange parsed
               = (if 10 <? parsed then parsed else 10)%float).
  { unfold App.replicationsOnChange, App.orZero, JS.max2.
    destruct (is_nan parsed) eqn:EN; cbn [orb].
    - replace (10 <? parsed)%float with false; [reflexivity|].
      symmetry. revert EN. unfold is_nan. rewrite eqb_spec, ltb_spec.
      destruct (Prim2SF parsed) as [s|s| |s m e]; try destruct s;
        cbn; try discriminate; try reflexivity.
      all: intros H; exfalso; revert H;
        rewrite ?Z.compare_refl, ?Pos.compare_cont_refl; discriminate.
    - destruct (parsed =? 0)%float eqn:EZ.
      + replace (10 <? parsed)%float with false; [reflexivity|].
        symmetry. revert EZ. rewrite eqb_spec, ltb_spec.
        change (Prim2SF 0) with (S754_zero false).
        change (Prim2SF 10) with (S754_finite false 5629499534213120 (-49)).
        destruct (Prim2SF parsed) as [s|s| |s m e]; try destruct s;
          cbn; try discriminate; reflexivity.
      + change (is_nan 10) with false. rewrite EN. cbn [orb].
        change (get_sign 10) with false.
        destruct (10 <? parsed)%float; [reflexivity|].
        destruct (parsed <? 10)%float; reflexivity. }
  split; [exact HV|]. split.
  - rewrite HV. destruct (10 <? parsed)%float eqn:E.
    + apply ltb_leb. exact E.
    + reflexivity.
  - unfold App.seedOnChange, App.orZero.
    destruct (is_nan parsed) eqn:EN; cbn [orb]; [reflexivity|].
    destruct (parsed =? 0)%float; [reflexivity|exact EN].
Qed.

(** * What a cancellation costs *)

Section Cancellation.

Context {M : MathLib}.

(** The loop up to the first check that reads the flag set. *)
Lemma loop_throws_at (env : Env) (p : SimulationParams) (K target : nat) :
  abortedBy env K target = true ->
  (forall r, (r < target)%nat -> abortedBy env K r = false) ->
  (forall b, (b < target)%nat -> pauseReturns env b = true) ->
  forall todo r a,
    (r <= target < r + todo)%nat ->
    loop env p K todo r (abortedBy env K r) a
    = (LoopThrow (iterReplication p (target - r) a),
       blocks K r (target - r) ++ [EvCheckAborted target]).
Proof.
  intros HT HF HP. induction todo as [|todo IH]; intros r a Hr; [lia|].
  cbn [loop]. destruct (Nat.eq_dec r target) as [->|Hne].
  - rewrite HT, Nat.sub_diag. reflexivity.
  - rewrite (HF r) by lia.
    assert (Hnext : abortedBy env K (S r)
                    = ((r mod K =? 0)%nat && abortWhileSuspended env r))
      by (cbn [abortedBy]; rewrite (HF r) by lia; reflexivity).
    specialize (IH (S r) (replication p a) ltac:(lia)).
    rewrite Hnext in IH.
    replace (target - r)%nat with (S (target - S r)) by lia.
    rewrite blocks_S. cbn [iterReplication]. unfold block.
    destruct (r mod K =? 0)%nat; cbn [andb] in IH.
    + rewrite HP by lia. rewrite IH. reflexivity.
    + rewrite IH. reflexivity.
Qed.

End Cancellation.

(** X15. Stopping a run costs one more replication: when the signal is
    aborted while the run is suspended before replication [b], that
    replication is still carried out in full, and the run rejects at the
    check that follows it, [b + 1] replications done and none of them
    handed out. *)
Theorem cancellation_costs_one_replication {M : MathLib} (env : Env)
    (p : SimulationParams) (b : nat) :
  (S b < Z.to_nat (replications p))%nat ->
  (b mod batchSizeOf p =? 0)%nat = true ->
  abortedBy env (batchSizeOf p) b = false ->
  abortWhileSuspended env b = true ->
  (forall r, (r <= b)%nat -> pauseReturns env r = true) ->
  runMonteCarloAsync env p = Rejected cancelledMessage
  /\ fst (runLoop env p) = LoopThrow (iterReplication p (S b) (initialAccum p))
  /\ runEvents env p
     = blocks (batchSizeOf p) 0 (S b) ++ [EvCheckAborted (S b)].
Proof.
  intros Hb HB HA HW HP.
  assert (E : runLoop env p
              = (LoopThrow (iterReplication p (S b) (initialAccum p)),
                 blocks (batchSizeOf p) 0 (S b) ++ [EvCheckAborted (S b)])).
  { unfold runLoop.
    change (abortedAtCall env) with (abortedBy env (batchSizeOf p) 0).
    rewrite (loop_throws_at env p (batchSizeOf p) (S b)).
    - rewrite Nat.sub_0_r. reflexivity.
    - cbn [abortedBy]. rewrite HA, HB, HW. reflexivity.
    - intros r Hr. apply (abortedBy_before env (batchSizeOf p) b HA). lia.
    - intros r Hr. apply HP. lia.
    - lia. }
  unfold runMonteCarloAsync, runEvents. rewrite E. repeat split.
Qed.

(** * Concrete instances *)


Lemma estimateOLS_quotient_witness :
  estimateOLS [1; 2; 3] [2; 4; 6] = 2%float.
Proof.
  rewrite (estimateOLS_quotient [1; 2; 3] [2; 4; 6]); vm_compute; reflexivity.
Defined.

Lemma run_on_empty_samples_witness :
  (exists res,
      runMonteCarloAsync (M := RefMath.lib) quietEnv emptySample = Resolved res
      /\ olsEstimates res = [nan; nan; nan]
      /\ ivEstimates res = [0; 0; 0]%float
      /\ fStats res = [nan; nan; nan])
  /\ (forall rng,
        generateSample (M := RefMath.lib) emptySample rng
        = ({| err_u := []; err_v := []; smp_z := []; smp_x := []; smp_y := [] |},
           rng))
  /\ (forall env',
        acc_rng (accumOf (fst (runLoop (M := RefMath.lib) env' emptySample)))
        = newSeededRNG (seed emptySample)).
Proof.
  apply (@run_on_empty_samples RefMath.lib emptySample quietEnv).
  - cbn. lia.
  - reflexivity.
  - intros r. reflexivity.
  - intros r. reflexivity.
Defined.

Lemma pause_defers_cancellation_witness :
  abortWhileSuspended (stoppedWhilePaused 10) 10 = true
  /\ runMonteCarloAsync (M := RefMath.lib) (stoppedWhilePaused 10)
       (demoParams 2 20)
     = Pending.
Proof.
  split; [reflexivity|].
  apply (@pause_defers_cancellation RefMath.lib (stoppedWhilePaused 10)
           (demoParams 2 20) 10).
  - vm_compute. lia.
  - reflexivity.
  - reflexivity.
  - intros r Hr. cbn [stoppedWhilePaused pauseReturns].
    destruct (Nat.eqb_spec 10 r); [lia|reflexivity].
  - reflexivity.
Defined.

Lemma cancellation_costs_one_replication_witness :
  runMonteCarloAsync (M := RefMath.lib) (abortDuring 10) (demoParams 2 20)
  = Rejected cancelledMessage
  /\ fst (runLoop (M := RefMath.lib) (abortDuring 10) (demoParams 2 20))
     = LoopThrow (iterReplication (M := RefMath.lib) (demoParams 2 20) 11
                    (initialAccum (demoParams 2 20)))
  /\ runEvents (M := RefMath.lib) (abortDuring 10) (demoParams 2 20)
     = blocks 10 0 11 ++ [EvCheckAborted 11].
Proof.
  apply (@cancellation_costs_one_replication RefMath.lib (abortDuring 10)
           (demoParams 2 20) 10).
  - vm_compute. lia.
  - reflexivity.
  - reflexivity.
  - reflexivity.
  - intros r Hr. reflexivity.
Defined.

(** The first of four bins, and the only bin of a histogram of one. *)
Lemma neighbouring_bins_are_disjoint_witness :
  (exists b,
      nth_error (createHistogramData [1; 2] [3] 4) 0 = Some b
      /\ olsFrequency b
         = (if (length [1; 2] =? 0)%nat then 0
            else JS.ofNat (length (filter (inBin b) [1; 2]))
                 / JS.ofNat (length [1; 2]))%float
      /\ ivFrequency b
         = (if (length [3] =? 0)%nat then 0
            else JS.ofNat (length (filter (inBin b) [3]))
                 / JS.ofNat (length [3]))%float
      /\ exists b',
           nth_error (createHistogramData [1; 2] [3] 4) 1 = Some b'
           /\ rangeStart b' = rangeEnd b
           /\ forall v, inBin b v && inBin b' v = false)
  /\ (exists b,
        nth_error (createHistogramData [1; 2] [3] 1) 0 = Some b
        /\ olsFrequency b
           = (if (length [1; 2] =? 0)%nat then 0
              else JS.ofNat (length (filter (inBin b) [1; 2]))
                   / JS.ofNat (length [1; 2]))%float
        /\ ivFrequency b
           = (if (length [3] =? 0)%nat then 0
              else JS.ofNat (length (filter (inBin b) [3]))
                   / JS.ofNat (length [3]))%float
        /\ nth_error (createHistogramData [1; 2] [3] 1) 1 = None).
Proof.
  split.
  - apply (neighbouring_bins_are_disjoint [1; 2] [3] 4 0); [discriminate|lia].
  - apply (neighbouring_bins_are_disjoint [1; 2] [3] 1 0); [discriminate|lia].
Defined.

Lemma completed_run_is_shown_witness :
  exists st',
    App.handleRunSimulation (M := RefMath.lib) quietEnv App.initialState
    = App.Returned st'
    /\ App.result st'
       = Some (completedResult (M := RefMath.lib) (App.params App.initialState))
    /\ length (App.chartData st') = 40%nat
    /\ App.isRunning st' = false
    /\ App.isPaused st' = false
    /\ App.abortController st' = false.
Proof.
  apply (@completed_run_is_shown RefMath.lib quietEnv App.initialState);
    intros; reflexivity.
Defined.

Lemma cancelled_run_keeps_the_chart_witness :
  exists st',
    App.handleRunSimulation (M := RefMath.lib) (abortDuring 0) App.initialState
    = App.Returned st'
    /\ App.result st' = None
    /\ App.chartData st' = App.chartData App.initialState
    /\ App.isRunning st' = false
    /\ App.isPaused st' = false
    /\ App.abortController st' = false.
Proof.
  apply (@cancelled_run_keeps_the_chart RefMath.lib (abortDuring 0)
           App.initialState 1).
  - reflexivity.
  - intros b. reflexivity.
  - vm_compute. lia.
  - reflexivity.
Defined.

Lemma export_needs_equal_lengths_witness :
  App.handleDownloadData noDigits (App.showing unevenResult)
  = App.DownloadError.
Proof.
  rewrite (export_needs_equal_lengths noDigits (App.showing unevenResult)
             unevenResult eq_refl).
  reflexivity.
Defined.

Lemma export_of_a_run_witness :
  let res := completedResult (M := RefMath.lib) (demoParams 2 2) in
  App.handleDownloadData noDigits (App.showing res)
  = App.Downloaded
      (String.append App.csvHeader (App.csvRows noDigits res 0 2)).
Proof.
  apply (@export_of_a_run RefMath.lib noDigits quietEnv (demoParams 2 2)).
  - vm_compute. reflexivity.
  - reflexivity.
Defined.

Lemma run_without_replications_witness :
  runMonteCarloAsync (M := RefMath.lib) alreadyAborted noReplication
  = Resolved {| olsEstimates := []; ivEstimates := []; fStats := [];
                olsBias := nan; ivBias := nan;
                olsVariance := nan; ivVariance := nan |}.
Proof.
  apply (run_without_replications RefMath.lib alreadyAborted noReplication).
  cbn. lia.
Defined.


